(** * CodeEditor: tab and active-file bookkeeping of the source viewer

    A shallow embedding of the event handlers of
    [src/ui/shared/monaco/CodeEditor.tsx].  The React component keeps four
    pieces of local state ([index], [tabs], [isMetaPressed] and the
    [editorRef] handle); every handler is modelled as a function from the
    state before the event to the state after it, together with the list
    of calls it makes on the editor widget and on the DOM event.  A
    [TypeError] raised by reading a property of [undefined] is [None]. *)

From Stdlib Require Import ZArith List String Bool Lia.
From Stdlib Require Import SpecFloat.
Import ListNotations.

Local Open Scope string_scope.
Local Open Scope Z_scope.
Local Open Scope list_scope.

(** ** JavaScript arrays and values *)

Module JS.

(** [a[i]]: [undefined] (here [None]) outside [0 .. a.length-1]. *)
Definition get {A : Type} (a : list A) (i : Z) : option A :=
  if i <? 0 then None else nth_error a (Z.to_nat i).

(** [a.findIndex(p)], scanning from position [i]. *)
Fixpoint findIndex_from {A : Type} (p : A -> bool) (a : list A) (i : Z) : Z :=
  match a with
  | [] => -1
  | x :: rest => if p x then i else findIndex_from p rest (i + 1)
  end.

Definition findIndex {A : Type} (p : A -> bool) (a : list A) : Z :=
  findIndex_from p a 0.

(** [a.some(p)] and [a.filter(p)]. *)
Definition some {A : Type} (p : A -> bool) (a : list A) : bool := existsb p a.
Definition filter {A : Type} (p : A -> bool) (a : list A) : list A := List.filter p a.

(** [a.length] as a JavaScript number. *)
Definition length {A : Type} (a : list A) : Z := Z.of_nat (List.length a).

(** [s === v] for a string [s] and a value [v] that is a string or
    [undefined]. *)
Definition strict_eq (s : string) (v : option string) : bool :=
  match v with
  | Some t => String.eqb s t
  | None => false
  end.

(** A value of type [number | undefined]: IEEE 754 doubles are taken
    from the standard library's specification of floats. *)
Definition number : Type := spec_float.

(** [Object.is(x, NaN)]. *)
Definition Object_is_NaN (x : number) : bool :=
  match x with
  | S754_nan => true
  | _ => false
  end.

(** [Number.isFinite(x)] on an optional number. *)
Definition isFinite (x : option number) : bool :=
  match x with
  | Some (S754_zero _) | Some (S754_finite _ _ _) => true
  | _ => false
  end.

End JS.

(** ** Data model *)

(** [File] of [./types]: the two fields the component reads. *)
Record File : Type := mkFile {
  file_path : string;
  source_code : string
}.

(** The component's local state: [index] and [tabs] are the two
    [useState] cells, [isMetaPressed] the third, and [editorMounted]
    records whether [editorRef.current] has been set. *)
Record State : Type := mkState {
  index : Z;
  tabs : list string;
  isMetaPressed : bool;
  editorMounted : bool
}.

(** Calls made on collaborators while a handler runs, in call order. *)
Inductive Effect : Type :=
| SetTimeout_revealLineInCenter (lineNumber : JS.number)
| EditorFocus
| StopPropagation.

(** What [handleClick] reads of the mouse event: whether the target's
    class list contains ['import-link'], and the target's inner text. *)
Record MouseEvent : Type := mkMouseEvent {
  isImportLink : bool;
  innerText : string
}.

Definition set_index (i : Z) (s : State) : State :=
  mkState i (tabs s) (isMetaPressed s) (editorMounted s).

Definition set_tabs (t : list string) (s : State) : State :=
  mkState (index s) t (isMetaPressed s) (editorMounted s).

Definition set_isMetaPressed (b : bool) (s : State) : State :=
  mkState (index s) (tabs s) b (editorMounted s).

Definition set_editorMounted (b : bool) (s : State) : State :=
  mkState (index s) (tabs s) (isMetaPressed s) b.

Definition is_scroll (e : Effect) : bool :=
  match e with
  | SetTimeout_revealLineInCenter _ => true
  | _ => false
  end.

Definition is_focus (e : Effect) : bool :=
  match e with
  | EditorFocus => true
  | _ => false
  end.

(** The tabs of [old] that are still present in [new], in the order they
    have in [old]. *)
Definition surviving (old new : list string) : list string :=
  List.filter (fun item => existsb (String.eqb item) new) old.

(** ** The handlers *)

Section CodeEditor.

(** The [data] prop. *)
Variable data : list File.

(** [./utils/getFullPathOfImportedFile], which is not part of the
    sources at hand: any function from the active path and the import
    text to a path or [undefined]. *)
Variable getFullPathOfImportedFile : string -> string -> option string.

(** State at mount: [useState(0)] and
    [useState([ data[index].file_path ])]. *)
Definition mount : option State :=
  match JS.get data 0 with
  | None => None
  | Some f => Some (mkState 0 [file_path f] false false)
  end.

(** [handleEditorDidMount]: stores the editor handle; theme and model
    registration happen inside the widget. *)
Definition handleEditorDidMount (s : State) : State :=
  set_editorMounted true s.

(** [handleSelectFile(index, lineNumber?)].  The handler queues
    [setIndex(index)] and the [setTabs] updater, makes its calls on the
    timer and on the editor, and returns: it never raises itself.  The
    second component is the list of those calls.  The first component
    is the state once the queued updates are applied in the render that
    follows; [data[index].file_path] is read only there, inside the
    updater, so for an index without a file that render raises the
    [TypeError] ([None]) after the calls have been made. *)
Definition handleSelectFile (idx : Z) (lineNumber : option JS.number) (s : State)
  : option State * list Effect :=
  let next :=
    match JS.get data idx with
    | None => None
    | Some f =>
        let prev := tabs s in
        let tabs' :=
          if JS.some (fun item => String.eqb item (file_path f)) prev
          then prev
          else prev ++ [file_path f] in
        Some (set_tabs tabs' (set_index idx s))
    end in
  let scroll :=
    match lineNumber with
    | None => []
    | Some n =>
        if negb (JS.Object_is_NaN n)
        then [SetTimeout_revealLineInCenter n]
        else []
    end in
  let focus := if editorMounted s then [EditorFocus] else [] in
  (next, scroll ++ focus).

(** [handleTabSelect(path)]. *)
Definition handleTabSelect (path : string) (s : State) : State :=
  let i := JS.findIndex (fun item => String.eqb (file_path item) path) data in
  if i >? -1 then set_index i s else s.

(** [handleTabClose(path)]. *)
Definition handleTabClose (path : string) (s : State) : option State :=
  let prev := tabs s in
  if JS.length prev >? 1 then
    let tabIndex := JS.findIndex (fun item => String.eqb item path) prev in
    match JS.get data (index s) with
    | None => None
    | Some cur =>
        let isActive := String.eqb (file_path cur) path in
        let s1 :=
          if isActive then
            let nextActiveIndex :=
              JS.findIndex
                (fun item =>
                   JS.strict_eq (file_path item)
                                (JS.get prev (Z.max 0 (tabIndex - 1))))
                data in
            set_index nextActiveIndex s
          else s in
        Some (set_tabs (JS.filter (fun item => negb (String.eqb item path)) prev) s1)
    end
  else Some s.

(** [handleClick(event)]; [isMobile] is the value of [useIsMobile()]
    at the time of the click.  [data[index].file_path] is read in the
    handler itself, which raises there ([None]) without an active file.
    [fileIndex], when above -1, is an index found in [data], so the
    selection it is passed to always has a next state. *)
Definition handleClick (isMobile : bool) (event : MouseEvent) (s : State)
  : option (State * list Effect) :=
  if negb (isMetaPressed s) && negb isMobile then Some (s, [])
  else if isImportLink event then
    match JS.get data (index s) with
    | None => None
    | Some cur =>
        let fullPath := getFullPathOfImportedFile (file_path cur) (innerText event) in
        let fileIndex :=
          JS.findIndex (fun file => JS.strict_eq (file_path file) fullPath) data in
        if fileIndex >? -1 then
          match handleSelectFile fileIndex None s with
          | (None, _) => None
          | (Some s', effs) => Some (s', StopPropagation :: effs)
          end
        else Some (s, [])
    end
  else Some (s, []).

(** [handleKeyDown(event)], given the value of [isMetaKey(event)]. *)
Definition handleKeyDown (isMetaKey : bool) (s : State) : State :=
  if isMetaKey then set_isMetaPressed true s else s.

(** [handleKeyUp()]. *)
Definition handleKeyUp (s : State) : State :=
  set_isMetaPressed false s.

(** ** The component as a transition system *)

Inductive Event : Type :=
| SelectFile (idx : Z) (lineNumber : option JS.number)
| TabSelect (path : string)
| TabClose (path : string)
| Click (isMobile : bool) (event : MouseEvent)
| KeyDown (isMetaKey : bool)
| KeyUp
| EditorDidMount.

(** One event: the next state and the calls made, or [None] when the
    component has no next state (a [TypeError] in the handler or in the
    render that follows it). *)
Definition step (ev : Event) (s : State) : option (State * list Effect) :=
  match ev with
  | SelectFile idx lineNumber =>
      match handleSelectFile idx lineNumber s with
      | (None, _) => None
      | (Some s', effs) => Some (s', effs)
      end
  | TabSelect path => Some (handleTabSelect path s, [])
  | TabClose path =>
      match handleTabClose path s with
      | None => None
      | Some s' => Some (s', [])
      end
  | Click isMobile event => handleClick isMobile event s
  | KeyDown isMetaKey => Some (handleKeyDown isMetaKey s, [])
  | KeyUp => Some (handleKeyUp s, [])
  | EditorDidMount => Some (handleEditorDidMount s, [])
  end.

Inductive reachable : State -> Prop :=
| reachable_mount : forall s, mount = Some s -> reachable s
| reachable_step : forall s ev s' effs,
    reachable s -> step ev s = Some (s', effs) -> reachable s'.

(** Every tab path is the path of a file of [data]. *)
Definition tabs_in_data (s : State) : Prop :=
  forall p, In p (tabs s) -> exists f, In f data /\ file_path f = p.

(** The active index points at a file of [data]. *)
Definition index_valid (s : State) : Prop :=
  0 <= index s < JS.length data.

(** What holds of every state the component can be in. *)
Definition invariant (s : State) : Prop :=
  tabs s <> [] /\ NoDup (tabs s) /\ tabs_in_data s /\ index_valid s.

(** The three shapes a step can give to the tab sequence. *)
Inductive tabs_change (old new : list string) : Prop :=
| tabs_kept : new = old -> tabs_change old new
| tabs_appended : forall f,
    In f data -> ~ In (file_path f) old -> new = old ++ [file_path f] ->
    tabs_change old new
| tabs_closed : forall path,
    (1 < List.length old)%nat ->
    new = JS.filter (fun item => negb (String.eqb item path)) old ->
    tabs_change old new.

End CodeEditor.

(** ** Sample inputs *)

Definition A_sol : File := mkFile "/contracts/A.sol" "import './B.sol';".
Definition B_sol : File := mkFile "/contracts/B.sol" "contract B {}".
Definition C_sol : File := mkFile "/contracts/C.sol" "contract C {}".

Definition three_files : list File := [A_sol; B_sol; C_sol].

(** A resolver for the samples: every import text is taken as a sibling
    of [/contracts/]. *)
Definition sibling_resolver (base text : string) : option string :=
  Some (String.append "/contracts/" text).

Definition st_A : State := mkState 0 ["/contracts/A.sol"] false false.
Definition st_AB_B : State :=
  mkState 1 ["/contracts/A.sol"; "/contracts/B.sol"] false false.
Definition st_AB_A : State :=
  mkState 0 ["/contracts/A.sol"; "/contracts/B.sol"] false false.
Definition st_B_A : State := mkState 0 ["/contracts/B.sol"] false false.

(** A stand-in for the widget in the samples: a model is its path, a
    URI is its text. *)
Definition sample_uri_path (model : string) : string := model.
Definition sample_Uri_parse (path : string) : string := path.
Definition sample_createModel (value language uri : string) : string := uri.

(** ** The active file and its tab *)

(** The active index points at a file whose path is one of the tabs. *)
Definition active_has_tab (data : list File) (s : State) : Prop :=
  exists f, JS.get data (index s) = Some f /\ In (file_path f) (tabs s).

(** The two events after which the active file may be left without a
    tab: selecting a path that is not a tab, and closing the first of
    several tabs while its file is the active one. *)
Definition orphaning (data : list File) (ev : Event) (s : State) : Prop :=
  match ev with
  | TabSelect path => ~ In path (tabs s)
  | TabClose path =>
      (1 < List.length (tabs s))%nat /\
      nth_error (tabs s) 0 = Some path /\
      exists f, JS.get data (index s) = Some f /\ file_path f = path
  | _ => False
  end.

(** ** Text models prepared by [handleEditorDidMount] *)

(** [a.slice(start)] for a start inside [0 .. a.length], and
    [a.includes(x)] on strings. *)
Definition Array_slice {A : Type} (start : nat) (a : list A) : list A :=
  skipn start a.

Definition Array_includes (a : list string) (x : string) : bool :=
  existsb (fun item => String.eqb item x) a.

Section EditorModels.

(** The widget's side, as far as the handler touches it: text models,
    [model.uri.path], [monaco.Uri.parse] and [monaco.editor.createModel]. *)
Variable Model : Type.
Variable Uri : Type.
Variable model_uri_path : Model -> string.
Variable Uri_parse : string -> Uri.
Variable createModel : string -> string -> Uri -> Model.

Variable data : list File.

(** [newModels], given the result of [monaco.editor.getModels()]. *)
Definition newModels (loadedModels : list Model) : list Model :=
  let loadedModelsPaths := map model_uri_path loadedModels in
  map (fun file =>
         createModel (source_code file) "sol" (Uri_parse (file_path file)))
      (JS.filter
         (fun file => negb (Array_includes loadedModelsPaths (file_path file)))
         (Array_slice 1 data)).

(** [loadedModels.concat(newModels)]: the models handed, in this order,
    to [addFileImportDecorations]. *)
Definition decoratedModels (loadedModels : list Model) : list Model :=
  loadedModels ++ newModels loadedModels.

End EditorModels.

(** ** Facts about the array operations *)

Section ArrayFacts.

Context {A : Type}.
Implicit Types (a : list A) (p : A -> bool) (i k : Z).

Lemma get_Some_range a i x :
  JS.get a i = Some x -> 0 <= i < JS.length a.
Proof.
  unfold JS.get, JS.length.
  destruct (Z.ltb_spec i 0) as [Hneg | Hpos]; [discriminate |].
  intros Hnth.
  assert (Hlt : (Z.to_nat i < List.length a)%nat).
  { apply nth_error_Some. rewrite Hnth. discriminate. }
  lia.
Qed.

Lemma get_In a i x : JS.get a i = Some x -> In x a.
Proof.
  unfold JS.get.
  destruct (i <? 0); [discriminate |].
  apply nth_error_In.
Qed.

Lemma get_in_range a i :
  0 <= i < JS.length a -> exists x, JS.get a i = Some x.
Proof.
  unfold JS.get, JS.length. intros [Hlo Hhi].
  destruct (Z.ltb_spec i 0) as [Hneg | _]; [lia |].
  destruct (nth_error a (Z.to_nat i)) as [x |] eqn:Hnth.
  - now exists x.
  - apply nth_error_None in Hnth. lia.
Qed.

Lemma get_of_nat a (n : nat) : JS.get a (Z.of_nat n) = nth_error a n.
Proof.
  unfold JS.get.
  destruct (Z.ltb_spec (Z.of_nat n) 0) as [Hneg | _]; [lia |].
  now rewrite Nat2Z.id.
Qed.

Lemma findIndex_from_bounds p a i :
  0 <= i ->
  JS.findIndex_from p a i = -1 \/
  i <= JS.findIndex_from p a i < i + JS.length a.
Proof.
  unfold JS.length. revert i.
  induction a as [| x rest IH]; intros i Hi; simpl.
  - now left.
  - destruct (p x).
    + right. lia.
    + destruct (IH (i + 1)) as [Hmiss | Hhit]; [lia | now left | right; lia].
Qed.

Lemma findIndex_from_hit p a i :
  0 <= i ->
  i <= JS.findIndex_from p a i ->
  exists x,
    nth_error a (Z.to_nat (JS.findIndex_from p a i - i)) = Some x /\ p x = true.
Proof.
  revert i.
  induction a as [| x rest IH]; intros i Hi; simpl.
  - lia.
  - destruct (p x) eqn:Hpx.
    + intros _. exists x. now rewrite Z.sub_diag.
    + intros Hle.
      destruct (findIndex_from_bounds p rest (i + 1)) as [Hmiss | Hhit]; [lia | lia |].
      destruct (IH (i + 1)) as (y & Hy & Hpy); [lia | lia |].
      exists y. split; [| exact Hpy].
      replace (Z.to_nat (JS.findIndex_from p rest (i + 1) - i))
        with (S (Z.to_nat (JS.findIndex_from p rest (i + 1) - (i + 1)))) by lia.
      exact Hy.
Qed.

Lemma findIndex_from_exists p a i x :
  0 <= i -> In x a -> p x = true -> i <= JS.findIndex_from p a i.
Proof.
  revert i.
  induction a as [| y rest IH]; intros i Hi Hin Hpx; simpl.
  - contradiction.
  - destruct (p y) eqn:Hpy; [lia |].
    destruct Hin as [-> | Hin]; [congruence |].
    assert (Hrec : i + 1 <= JS.findIndex_from p rest (i + 1)).
    { apply IH; [lia | exact Hin | exact Hpx]. }
    lia.
Qed.

Lemma findIndex_from_first p a i (n : nat) x :
  nth_error a n = Some x ->
  p x = true ->
  (forall m y, (m < n)%nat -> nth_error a m = Some y -> p y = false) ->
  JS.findIndex_from p a i = i + Z.of_nat n.
Proof.
  revert i n.
  induction a as [| y rest IH]; intros i n Hnth Hpx Hbefore.
  - destruct n; discriminate.
  - destruct n as [| n]; simpl in *.
    + injection Hnth as ->. rewrite Hpx. lia.
    + rewrite (Hbefore 0%nat y) by (simpl; trivial; lia).
      rewrite (IH (i + 1) n); [lia | exact Hnth | exact Hpx |].
      intros m z Hm Hz. apply (Hbefore (S m) z); [lia | exact Hz].
Qed.

Lemma findIndex_range p a : -1 <= JS.findIndex p a < JS.length a.
Proof.
  unfold JS.findIndex.
  destruct (findIndex_from_bounds p a 0) as [Hmiss | Hhit]; [lia | |]; [| lia].
  rewrite Hmiss. unfold JS.length. lia.
Qed.

Lemma findIndex_found p a :
  0 <= JS.findIndex p a ->
  exists x, JS.get a (JS.findIndex p a) = Some x /\ p x = true.
Proof.
  unfold JS.findIndex. intros Hge.
  destruct (findIndex_from_hit p a 0) as (x & Hx & Hpx); [lia | exact Hge |].
  exists x. split; [| exact Hpx].
  unfold JS.get.
  destruct (Z.ltb_spec (JS.findIndex_from p a 0) 0) as [Hneg | _]; [lia |].
  now rewrite Z.sub_0_r in Hx.
Qed.

Lemma findIndex_exists p a x :
  In x a -> p x = true -> 0 <= JS.findIndex p a.
Proof.
  intros Hin Hpx. unfold JS.findIndex.
  apply (findIndex_from_exists p a 0 x); [lia | exact Hin | exact Hpx].
Qed.

End ArrayFacts.

(** ** Facts about sequences of tab paths *)

Lemma some_eqb_In (q : string) (l : list string) :
  JS.some (fun item => String.eqb item q) l = true <-> In q l.
Proof.
  unfold JS.some. rewrite existsb_exists. split.
  - intros (x & Hin & Heq). apply String.eqb_eq in Heq. now subst.
  - intros Hin. exists q. split; [exact Hin | apply String.eqb_refl].
Qed.

Lemma existsb_eqb_In (x : string) (l : list string) :
  existsb (String.eqb x) l = true <-> In x l.
Proof.
  rewrite existsb_exists. split.
  - intros (y & Hin & Heq). apply String.eqb_eq in Heq. now subst.
  - intros Hin. exists x. split; [exact Hin | apply String.eqb_refl].
Qed.

Lemma filter_all (p : string -> bool) (l : list string) :
  (forall x, In x l -> p x = true) -> List.filter p l = l.
Proof.
  induction l as [| y l IH]; intros Hall; simpl; [reflexivity |].
  rewrite (Hall y (or_introl eq_refl)).
  f_equal. apply IH. intros x Hx. apply Hall. now right.
Qed.

Lemma In_filter_neq (path x : string) (l : list string) :
  In x (JS.filter (fun item => negb (String.eqb item path)) l) <->
  In x l /\ x <> path.
Proof.
  unfold JS.filter. rewrite filter_In, negb_true_iff, String.eqb_neq.
  reflexivity.
Qed.

Lemma filter_neq_notin (path : string) (l : list string) :
  ~ In path l ->
  JS.filter (fun item => negb (String.eqb item path)) l = l.
Proof.
  intros Hnotin. apply filter_all.
  intros x Hx. apply negb_true_iff, String.eqb_neq.
  intros ->. contradiction.
Qed.

Lemma filter_neq_length (path : string) (l : list string) :
  NoDup l -> In path l ->
  S (List.length (JS.filter (fun item => negb (String.eqb item path)) l))
  = List.length l.
Proof.
  induction 1 as [| y l Hy Hnd IH]; intros Hin; [contradiction |].
  unfold JS.filter in *. simpl.
  destruct (String.eqb_spec y path) as [-> | Hne]; simpl.
  - f_equal. f_equal. now apply filter_neq_notin.
  - f_equal. apply IH. destruct Hin as [Heq | Hin]; [congruence | exact Hin].
Qed.

Lemma filter_neq_nonempty (path : string) (l : list string) :
  NoDup l -> (1 < List.length l)%nat ->
  JS.filter (fun item => negb (String.eqb item path)) l <> [].
Proof.
  intros Hnd Hlen Hnil.
  destruct (in_dec string_dec path l) as [Hin | Hnotin].
  - pose proof (filter_neq_length path l Hnd Hin) as Hl.
    rewrite Hnil in Hl. simpl in Hl. lia.
  - rewrite filter_neq_notin in Hnil by exact Hnotin.
    subst l. simpl in Hlen. lia.
Qed.

Lemma findIndex_NoDup (l : list string) (n : nat) (x : string) :
  NoDup l -> nth_error l n = Some x ->
  JS.findIndex (fun item => String.eqb item x) l = Z.of_nat n.
Proof.
  intros Hnd Hnth. unfold JS.findIndex.
  rewrite (findIndex_from_first _ l 0 n x); [lia | exact Hnth | apply String.eqb_refl |].
  intros m y Hm Hy. apply String.eqb_neq. intros ->.
  assert (Hmn : m = n).
  { apply (proj1 (NoDup_nth_error l) Hnd).
    - apply nth_error_Some. rewrite Hy. discriminate.
    - congruence. }
  lia.
Qed.

Lemma surviving_all (old new : list string) :
  (forall x, In x old -> In x new) -> surviving old new = old.
Proof.
  intros Hsub. apply filter_all.
  intros x Hx. apply existsb_eqb_In. now apply Hsub.
Qed.

Lemma surviving_filter_neq (path : string) (l : list string) :
  surviving l (JS.filter (fun item => negb (String.eqb item path)) l)
  = JS.filter (fun item => negb (String.eqb item path)) l.
Proof.
  unfold surviving, JS.filter.
  apply filter_ext_in. intros x Hx.
  destruct (String.eqb_spec x path) as [-> | Hne]; simpl.
  - apply not_true_is_false. rewrite existsb_eqb_In.
    intros Hin. apply (In_filter_neq path path l) in Hin. now destruct Hin.
  - apply existsb_eqb_In. apply (In_filter_neq path x l). now split.
Qed.

(** ** How each handler changes the state *)

Section Handlers.

Variable data : list File.
Variable getFullPathOfImportedFile : string -> string -> option string.


Lemma handleSelectFile_inv idx lineNumber s s' effs :
  handleSelectFile data idx lineNumber s = (Some s', effs) ->
  exists f,
    JS.get data idx = Some f /\
    index s' = idx /\
    isMetaPressed s' = isMetaPressed s /\
    editorMounted s' = editorMounted s /\
    ((In (file_path f) (tabs s) /\ tabs s' = tabs s) \/
     (~ In (file_path f) (tabs s) /\ tabs s' = tabs s ++ [file_path f])).
Proof.
  unfold handleSelectFile.
  destruct (JS.get data idx) as [f |] eqn:Hget; [| discriminate].
  intros Heq. injection Heq as <- _.
  exists f. repeat split.
  destruct (JS.some _ (tabs s)) eqn:Hsome; simpl.
  - left. split; [now apply some_eqb_In | reflexivity].
  - right. split; [| reflexivity].
    intros Hin. apply some_eqb_In in Hin. congruence.
Qed.

Lemma handleSelectFile_total idx lineNumber s :
  0 <= idx < JS.length data ->
  exists s' effs, handleSelectFile data idx lineNumber s = (Some s', effs).
Proof.
  intros Hidx. destruct (get_in_range data idx Hidx) as (f & Hf).
  unfold handleSelectFile. rewrite Hf. eauto.
Qed.

Lemma step_SelectFile_inv idx lineNumber s s' effs :
  step data getFullPathOfImportedFile (SelectFile idx lineNumber) s = Some (s', effs) ->
  handleSelectFile data idx lineNumber s = (Some s', effs).
Proof.
  unfold step.
  destruct (handleSelectFile data idx lineNumber s) as [[s1 |] effs1];
    intros Heq; [| discriminate].
  now injection Heq as <- <-.
Qed.

Lemma handleTabSelect_tabs path s : tabs (handleTabSelect data path s) = tabs s.
Proof.
  unfold handleTabSelect. destruct (_ >? -1); reflexivity.
Qed.

Lemma handleTabSelect_index path s :
  index_valid data s -> index_valid data (handleTabSelect data path s).
Proof.
  unfold handleTabSelect, index_valid.
  set (i := JS.findIndex _ data). intros Hvalid.
  destruct (Z.gtb_spec i (-1)) as [Hfound | Hmiss]; [| exact Hvalid].
  simpl. pose proof (findIndex_range (fun item => String.eqb (file_path item) path) data).
  fold i in H. lia.
Qed.

(** The tab whose file replaces a closed active tab exists, and so does
    its file, as soon as every tab path is a path of [data]. *)
Lemma replacement_found path s :
  tabs_in_data data s ->
  (1 < List.length (tabs s))%nat ->
  exists q f,
    JS.get (tabs s)
           (Z.max 0 (JS.findIndex (fun item => String.eqb item path) (tabs s) - 1))
      = Some q /\
    JS.get data
           (JS.findIndex (fun item => JS.strict_eq (file_path item) (Some q)) data)
      = Some f /\
    file_path f = q.
Proof.
  intros Hsub Hlen.
  pose proof (findIndex_range (fun item => String.eqb item path) (tabs s)) as Hrange.
  set (tabIndex := JS.findIndex _ (tabs s)) in *.
  destruct (get_in_range (tabs s) (Z.max 0 (tabIndex - 1))) as (q & Hq).
  { unfold JS.length in *. lia. }
  exists q.
  destruct (Hsub q (get_In _ _ _ Hq)) as (g & Hg & Hpath).
  assert (Hge : 0 <= JS.findIndex (fun item => JS.strict_eq (file_path item) (Some q)) data).
  { apply (findIndex_exists _ data g Hg). simpl. rewrite Hpath. apply String.eqb_refl. }
  destruct (findIndex_found _ data Hge) as (f & Hf & Hmatch).
  exists f. repeat split; [exact Hq | exact Hf |].
  simpl in Hmatch. now apply String.eqb_eq.
Qed.

Lemma handleTabClose_single path s :
  (List.length (tabs s) <= 1)%nat -> handleTabClose data path s = Some s.
Proof.
  intros Hlen. unfold handleTabClose, JS.length.
  destruct (Z.gtb_spec (Z.of_nat (List.length (tabs s))) 1) as [Hgt | _]; [lia | reflexivity].
Qed.

Lemma handleTabClose_many path s :
  (1 < List.length (tabs s))%nat ->
  handleTabClose data path s =
  match JS.get data (index s) with
  | None => None
  | Some cur =>
      Some (set_tabs
              (JS.filter (fun item => negb (String.eqb item path)) (tabs s))
              (if String.eqb (file_path cur) path
               then set_index
                      (JS.findIndex
                         (fun item =>
                            JS.strict_eq
                              (file_path item)
                              (JS.get (tabs s)
                                 (Z.max 0
                                    (JS.findIndex (fun item => String.eqb item path) (tabs s) - 1))))
                         data) s
               else s))
  end.
Proof.
  intros Hlen. unfold handleTabClose, JS.length.
  destruct (Z.gtb_spec (Z.of_nat (List.length (tabs s))) 1) as [_ | Hle]; [reflexivity | lia].
Qed.

Lemma handleTabClose_inv path s s' :
  handleTabClose data path s = Some s' ->
  s' = s \/
  ((1 < List.length (tabs s))%nat /\
   tabs s' = JS.filter (fun item => negb (String.eqb item path)) (tabs s)).
Proof.
  destruct (Nat.le_gt_cases (List.length (tabs s)) 1) as [Hle | Hgt].
  - rewrite handleTabClose_single by exact Hle. intros Heq. left. congruence.
  - rewrite handleTabClose_many by exact Hgt.
    destruct (JS.get data (index s)) as [cur |]; [| discriminate].
    intros Heq. injection Heq as <-. right. split; [exact Hgt | reflexivity].
Qed.

Lemma handleTabClose_total path s :
  index_valid data s -> exists s', handleTabClose data path s = Some s'.
Proof.
  intros Hvalid. destruct (get_in_range data (index s) Hvalid) as (cur & Hcur).
  destruct (Nat.le_gt_cases (List.length (tabs s)) 1) as [Hle | Hgt].
  - rewrite handleTabClose_single by exact Hle. eauto.
  - rewrite handleTabClose_many by exact Hgt. rewrite Hcur. eauto.
Qed.

Lemma handleTabClose_index path s s' :
  tabs_in_data data s -> index_valid data s ->
  handleTabClose data path s = Some s' -> index_valid data s'.
Proof.
  intros Hsub Hvalid.
  destruct (Nat.le_gt_cases (List.length (tabs s)) 1) as [Hle | Hgt].
  - rewrite handleTabClose_single by exact Hle. intros Heq.
    injection Heq as <-. exact Hvalid.
  - rewrite handleTabClose_many by exact Hgt.
    destruct (JS.get data (index s)) as [cur |]; [| discriminate].
    intros Heq. injection Heq as <-.
    destruct (String.eqb (file_path cur) path); [| exact Hvalid].
    destruct (replacement_found path s Hsub Hgt) as (q & f & Hq & Hf & _).
    rewrite Hq. unfold index_valid. simpl.
    exact (get_Some_range _ _ _ Hf).
Qed.

Lemma handleClick_inv isMobile event s s' effs :
  handleClick data getFullPathOfImportedFile isMobile event s = Some (s', effs) ->
  (s' = s /\ effs = []) \/
  (exists fileIndex effs',
      (isMetaPressed s = true \/ isMobile = true) /\
      isImportLink event = true /\
      handleSelectFile data fileIndex None s = (Some s', effs') /\
      effs = StopPropagation :: effs').
Proof.
  unfold handleClick.
  destruct (negb (isMetaPressed s) && negb isMobile) eqn:Hgate.
  { intros Heq. left. split; congruence. }
  destruct (isImportLink event) eqn:Hlink.
  2:{ intros Heq. left. split; congruence. }
  destruct (JS.get data (index s)) as [cur |]; [| discriminate].
  set (fileIndex := JS.findIndex _ data).
  destruct (fileIndex >? -1).
  2:{ intros Heq. left. split; congruence. }
  destruct (handleSelectFile data fileIndex None s) as [[s1 |] effs1] eqn:Hsel; [| discriminate].
  intros Heq. injection Heq as <- <-.
  right. exists fileIndex, effs1.
  split; [| split; [reflexivity | split; [exact Hsel | reflexivity]]].
  apply andb_false_iff in Hgate.
  destruct Hgate as [Hm | Hm]; apply negb_false_iff in Hm; auto.
Qed.

Lemma step_tabs ev s s' effs :
  step data getFullPathOfImportedFile ev s = Some (s', effs) -> tabs_change data (tabs s) (tabs s').
Proof.
  assert (Hsel : forall idx ln effs0,
             handleSelectFile data idx ln s = (Some s', effs0) ->
             tabs_change data (tabs s) (tabs s')).
  { intros idx ln effs0 H.
    destruct (handleSelectFile_inv _ _ _ _ _ H)
      as (f & Hf & _ & _ & _ & [[_ Hsame] | [Hnew Happ]]).
    - now apply tabs_kept.
    - apply (tabs_appended data _ _ f); [exact (get_In _ _ _ Hf) | exact Hnew | exact Happ]. }
  destruct ev as [idx ln | path | path | isMobile event | isMeta | |]; simpl.
  - intros H. exact (Hsel _ _ _ (step_SelectFile_inv _ _ _ _ _ H)).
  - intros Heq. injection Heq as <- _. apply tabs_kept, handleTabSelect_tabs.
  - destruct (handleTabClose data path s) as [s1 |] eqn:Hclose; [| discriminate].
    intros Heq. injection Heq as <- _.
    destruct (handleTabClose_inv _ _ _ Hclose) as [-> | [Hlen Hfilter]].
    + now apply tabs_kept.
    + now apply (tabs_closed data _ _ path).
  - intros Hclick.
    destruct (handleClick_inv _ _ _ _ _ Hclick)
      as [[-> _] | (fileIndex & effs' & _ & _ & Hs & _)].
    + now apply tabs_kept.
    + exact (Hsel _ _ _ Hs).
  - intros Heq. injection Heq as <- _. apply tabs_kept.
    unfold handleKeyDown. now destruct isMeta.
  - intros Heq. injection Heq as <- _. now apply tabs_kept.
  - intros Heq. injection Heq as <- _. now apply tabs_kept.
Qed.

End Handlers.

(** ** The invariant of reachable states *)

Section Invariant.

Variable data : list File.
Variable getFullPathOfImportedFile : string -> string -> option string.

Lemma tabs_change_nonempty old new :
  tabs_change data old new -> NoDup old -> old <> [] -> new <> [].
Proof.
  intros [-> | f _ _ -> | path Hlen ->] Hnd Hne.
  - exact Hne.
  - intros Happ. now apply app_eq_nil in Happ as [_ Habs].
  - now apply filter_neq_nonempty.
Qed.

Lemma tabs_change_NoDup old new :
  tabs_change data old new -> NoDup old -> NoDup new.
Proof.
  intros [-> | f _ Hnew -> | path _ ->] Hnd.
  - exact Hnd.
  - apply NoDup_app; [exact Hnd | repeat constructor; intros [] |].
    intros x Hx [<- | []]. contradiction.
  - now apply NoDup_filter.
Qed.

Lemma tabs_change_in_data old new :
  tabs_change data old new ->
  (forall p, In p old -> exists f, In f data /\ file_path f = p) ->
  forall p, In p new -> exists f, In f data /\ file_path f = p.
Proof.
  intros [-> | f Hf _ -> | path _ ->] Hsub p Hp.
  - now apply Hsub.
  - apply in_app_or in Hp as [Hp | [<- | []]]; [now apply Hsub | now exists f].
  - apply In_filter_neq in Hp as [Hp _]. now apply Hsub.
Qed.

(** After a step the old tabs that survive come first, in their old
    order, and whatever is new comes after them. *)
Lemma tabs_change_order old new :
  tabs_change data old new ->
  exists added,
    new = surviving old new ++ added /\ forall x, In x added -> ~ In x old.
Proof.
  intros [-> | f _ Hnew -> | path _ ->].
  - exists []. rewrite app_nil_r. split; [| intros x []].
    symmetry. now apply surviving_all.
  - exists [file_path f]. split.
    + f_equal. symmetry. apply surviving_all.
      intros x Hx. apply in_or_app. now left.
    + intros x [<- | []]. exact Hnew.
  - exists []. rewrite app_nil_r. split; [| intros x []].
    symmetry. apply surviving_filter_neq.
Qed.

Lemma step_index_valid ev s s' effs :
  tabs_in_data data s -> index_valid data s ->
  step data getFullPathOfImportedFile ev s = Some (s', effs) ->
  index_valid data s'.
Proof.
  intros Hsub Hvalid.
  assert (Hsel : forall idx ln effs0,
             handleSelectFile data idx ln s = (Some s', effs0) ->
             index_valid data s').
  { intros idx ln effs0 H.
    destruct (handleSelectFile_inv _ _ _ _ _ _ H) as (f & Hf & Hidx & _).
    unfold index_valid. rewrite Hidx. exact (get_Some_range _ _ _ Hf). }
  destruct ev as [idx ln | path | path | isMobile event | isMeta | |]; simpl.
  - intros H. exact (Hsel _ _ _ (step_SelectFile_inv data getFullPathOfImportedFile _ _ _ _ _ H)).
  - intros Heq. injection Heq as <- _. now apply handleTabSelect_index.
  - destruct (handleTabClose data path s) as [s1 |] eqn:Hclose; [| discriminate].
    intros Heq. injection Heq as <- _.
    exact (handleTabClose_index _ _ _ _ Hsub Hvalid Hclose).
  - intros Hclick.
    destruct (handleClick_inv _ _ _ _ _ _ _ Hclick)
      as [[-> _] | (fileIndex & effs' & _ & _ & Hs & _)].
    + exact Hvalid.
    + exact (Hsel _ _ _ Hs).
  - intros Heq. injection Heq as <- _.
    unfold handleKeyDown. now destruct isMeta.
  - intros Heq. injection Heq as <- _. exact Hvalid.
  - intros Heq. injection Heq as <- _. exact Hvalid.
Qed.

Lemma invariant_mount s : mount data = Some s -> invariant data s.
Proof.
  unfold mount. destruct (JS.get data 0) as [f |] eqn:Hf; [| discriminate].
  intros Heq. injection Heq as <-.
  unfold invariant, tabs_in_data, index_valid. simpl. repeat split.
  - discriminate.
  - repeat constructor. intros [].
  - intros p [<- | []]. exists f. split; [exact (get_In _ _ _ Hf) | reflexivity].
  - lia.
  - apply (get_Some_range _ _ _ Hf).
Qed.

Lemma invariant_step ev s s' effs :
  invariant data s ->
  step data getFullPathOfImportedFile ev s = Some (s', effs) ->
  invariant data s'.
Proof.
  intros (Hne & Hnd & Hsub & Hvalid) Hstep.
  pose proof (step_tabs _ _ _ _ _ _ Hstep) as Hchange.
  repeat split.
  - exact (tabs_change_nonempty _ _ Hchange Hnd Hne).
  - exact (tabs_change_NoDup _ _ Hchange Hnd).
  - exact (tabs_change_in_data _ _ Hchange Hsub).
  - apply (step_index_valid _ _ _ _ Hsub Hvalid Hstep).
  - apply (step_index_valid _ _ _ _ Hsub Hvalid Hstep).
Qed.

Lemma reachable_invariant s :
  reachable data getFullPathOfImportedFile s -> invariant data s.
Proof.
  induction 1 as [s Hmount | s ev s' effs _ IH Hstep].
  - now apply invariant_mount.
  - exact (invariant_step _ _ _ _ IH Hstep).
Qed.

End Invariant.

Lemma findIndex_none {A : Type} (p : A -> bool) (a : list A) :
  (forall x, In x a -> p x = false) -> JS.findIndex p a = -1.
Proof.
  intros Hnone.
  pose proof (findIndex_range p a) as Hrange.
  destruct (Z.eq_dec (JS.findIndex p a) (-1)) as [Heq | Hne]; [exact Heq |].
  destruct (findIndex_found p a) as (x & Hx & Hpx); [lia |].
  rewrite (Hnone x (get_In _ _ _ Hx)) in Hpx. discriminate.
Qed.

(** ** Properties of the tab manager *)

Section TabManager.

Variable data : list File.
Variable getFullPathOfImportedFile : string -> string -> option string.

(** C5: for every non-empty File collection, the state at mount has the
    tab sequence equal to the singleton of the first file's path and the
    active index equal to 0. *)
Theorem mount_initial_state :
  data <> [] ->
  exists f s,
    nth_error data 0 = Some f /\
    mount data = Some s /\
    tabs s = [file_path f] /\
    index s = 0.
Proof.
  intros Hne. destruct data as [| f rest]; [contradiction |].
  exists f. eexists. repeat split.
Qed.

(** C3: for every state and every valid file index [i], selecting file
    [i] sets the active index to [i]; the tab sequence is unchanged when
    the path of [i] is already a tab and otherwise gets exactly that path
    appended at its end, so existing tabs are neither removed nor
    reordered; selecting [i] again changes nothing. *)
Theorem selectFile_sets_index_appends_once s i lineNumber :
  0 <= i < JS.length data ->
  exists f s' effs,
    JS.get data i = Some f /\
    handleSelectFile data i lineNumber s = (Some s', effs) /\
    index s' = i /\
    (In (file_path f) (tabs s) -> tabs s' = tabs s) /\
    (~ In (file_path f) (tabs s) -> tabs s' = tabs s ++ [file_path f]) /\
    (exists added, tabs s' = tabs s ++ added /\ (List.length added <= 1)%nat) /\
    (forall lineNumber', exists effs',
        handleSelectFile data i lineNumber' s' = (Some s', effs')).
Proof.
  intros Hidx.
  destruct (handleSelectFile_total data i lineNumber s Hidx) as (s' & effs & Hsel).
  destruct (handleSelectFile_inv _ _ _ _ _ _ Hsel)
    as (f & Hf & Hindex & _ & _ & Htabs).
  exists f, s', effs.
  assert (Hopen : In (file_path f) (tabs s')).
  { destruct Htabs as [[Hin ->] | [_ ->]]; [exact Hin |].
    apply in_or_app. right. now left. }
  repeat split; try assumption.
  - intros Hin. destruct Htabs as [[_ Hsame] | [Hnotin _]]; [exact Hsame | contradiction].
  - intros Hnotin. destruct Htabs as [[Hin _] | [_ Happ]]; [contradiction | exact Happ].
  - destruct Htabs as [[_ Hsame] | [_ Happ]].
    + exists []. rewrite app_nil_r. split; [exact Hsame | simpl; lia].
    + exists [file_path f]. split; [exact Happ | simpl; lia].
  - intros lineNumber'. unfold handleSelectFile. rewrite Hf.
    apply some_eqb_In in Hopen. rewrite Hopen.
    eexists. f_equal. f_equal.
    destruct s' as [i' t' m' e']. simpl in Hindex. subst i'. reflexivity.
Qed.

(** C4: in every state whose tab sequence has exactly one entry, closing
    a tab, whatever the path, leaves the whole state as it was. *)
Theorem closeTab_sole_tab_noop s path :
  List.length (tabs s) = 1%nat ->
  handleTabClose data path s = Some s.
Proof.
  intros Hlen. apply handleTabClose_single. lia.
Qed.

(** C2: in every reachable state with more than one tab whose active
    tab is at position [p > 0], closing the active tab's path removes
    that path from the tab sequence and makes active the file whose path
    was at position [p - 1] before the removal. *)
Theorem closeTab_active_selects_left_neighbour s (p : nat) path cur :
  reachable data getFullPathOfImportedFile s ->
  (1 < List.length (tabs s))%nat ->
  (0 < p)%nat ->
  JS.get data (index s) = Some cur ->
  file_path cur = path ->
  nth_error (tabs s) p = Some path ->
  exists s' left f,
    handleTabClose data path s = Some s' /\
    tabs s' = JS.filter (fun item => negb (String.eqb item path)) (tabs s) /\
    ~ In path (tabs s') /\
    S (List.length (tabs s')) = List.length (tabs s) /\
    nth_error (tabs s) (p - 1) = Some left /\
    JS.get data (index s') = Some f /\
    file_path f = left.
Proof.
  intros Hreach Hlen Hp Hcur Hactive Hpos.
  destruct (reachable_invariant _ _ _ Hreach) as (_ & Hnd & Hsub & _).
  destruct (replacement_found data path s Hsub Hlen) as (q & f & Hq & Hf & Hpath).
  rewrite (findIndex_NoDup _ _ _ Hnd Hpos) in Hq.
  replace (Z.max 0 (Z.of_nat p - 1)) with (Z.of_nat (p - 1)) in Hq by lia.
  rewrite get_of_nat in Hq.
  rewrite handleTabClose_many by exact Hlen.
  rewrite Hcur, Hactive, String.eqb_refl.
  rewrite (findIndex_NoDup _ _ _ Hnd Hpos).
  replace (Z.max 0 (Z.of_nat p - 1)) with (Z.of_nat (p - 1)) by lia.
  rewrite get_of_nat, Hq.
  eexists. exists q, f. split; [reflexivity |].
  cbn [tabs index set_tabs set_index].
  split; [reflexivity |].
  split.
  { intros Hin. apply In_filter_neq in Hin as [_ Hne]. now apply Hne. }
  split.
  { apply filter_neq_length; [exact Hnd | exact (nth_error_In _ _ Hpos)]. }
  split; [reflexivity |].
  split; [exact Hf | exact Hpath].
Qed.

(** C6: in every state reachable from the state at mount, the tab
    sequence is not empty and has no duplicate path, and every further
    step keeps the surviving tabs first and in their old order, with
    anything new after them. *)
Theorem reachable_tabs_nonempty_nodup_ordered s :
  reachable data getFullPathOfImportedFile s ->
  tabs s <> [] /\
  NoDup (tabs s) /\
  forall ev s' effs,
    step data getFullPathOfImportedFile ev s = Some (s', effs) ->
    exists added,
      tabs s' = surviving (tabs s) (tabs s') ++ added /\
      forall x, In x added -> ~ In x (tabs s).
Proof.
  intros Hreach.
  destruct (reachable_invariant _ _ _ Hreach) as (Hne & Hnd & _).
  repeat split; [exact Hne | exact Hnd |].
  intros ev s' effs Hstep.
  apply (tabs_change_order data). exact (step_tabs _ _ _ _ _ _ Hstep).
Qed.

(** C10: in every reachable state every tab path is the path of some
    file of the collection; hence closing a tab always succeeds and
    leaves the active index at a file of the collection, never at -1. *)
Theorem reachable_tabs_in_data_closeTab_finds_file s :
  reachable data getFullPathOfImportedFile s ->
  (forall p, In p (tabs s) -> exists f, In f data /\ file_path f = p) /\
  forall path,
    exists s' f,
      handleTabClose data path s = Some s' /\
      index s' <> -1 /\
      JS.get data (index s') = Some f.
Proof.
  intros Hreach.
  destruct (reachable_invariant _ _ _ Hreach) as (_ & _ & Hsub & Hvalid).
  split; [exact Hsub |].
  intros path.
  destruct (handleTabClose_total data path s Hvalid) as (s' & Hclose).
  pose proof (handleTabClose_index _ _ _ _ Hsub Hvalid Hclose) as Hvalid'.
  destruct (get_in_range data (index s') Hvalid') as (f & Hf).
  exists s', f. repeat split; [exact Hclose | | exact Hf].
  unfold index_valid in Hvalid'. lia.
Qed.

End TabManager.

(** ** Import-link clicks and the deferred scroll *)

Section ImportClick.

Variable data : list File.
Variable getFullPathOfImportedFile : string -> string -> option string.

(** C7: in every reachable state, a click on an import reference whose
    resolved path is the path of no file of the collection returns
    normally with the state unchanged and without any call on the event
    or on the editor. *)
Theorem click_unresolved_import_changes_nothing s isMobile event :
  reachable data getFullPathOfImportedFile s ->
  isImportLink event = true ->
  (forall cur file,
      JS.get data (index s) = Some cur ->
      In file data ->
      getFullPathOfImportedFile (file_path cur) (innerText event)
      <> Some (file_path file)) ->
  handleClick data getFullPathOfImportedFile isMobile event s = Some (s, []).
Proof.
  intros Hreach Hlink Hmiss.
  destruct (reachable_invariant _ _ _ Hreach) as (_ & _ & _ & Hvalid).
  destruct (get_in_range data (index s) Hvalid) as (cur & Hcur).
  unfold handleClick.
  destruct (negb (isMetaPressed s) && negb isMobile); [reflexivity |].
  rewrite Hlink, Hcur.
  rewrite findIndex_none; [reflexivity |].
  intros file Hfile. specialize (Hmiss cur file Hcur Hfile).
  destruct (getFullPathOfImportedFile (file_path cur) (innerText event)) as [t |];
    simpl; [| reflexivity].
  apply String.eqb_neq. congruence.
Qed.

(** C9: a click changes nothing while the meta-key flag is off on a
    desktop; so a click that changes the active index or the tabs was
    made with the flag on or on a mobile; and with the flag on or on a
    mobile every click on an import reference that resolves to a file
    selects that file. *)
Theorem click_navigation_gated s isMobile event :
  (isMetaPressed s = false -> isMobile = false ->
   handleClick data getFullPathOfImportedFile isMobile event s = Some (s, [])) /\
  (forall s' effs,
      handleClick data getFullPathOfImportedFile isMobile event s = Some (s', effs) ->
      index s' <> index s \/ tabs s' <> tabs s ->
      isMetaPressed s = true \/ isMobile = true) /\
  (forall cur fileIndex,
      isMetaPressed s = true \/ isMobile = true ->
      isImportLink event = true ->
      JS.get data (index s) = Some cur ->
      JS.findIndex
        (fun file =>
           JS.strict_eq (file_path file)
             (getFullPathOfImportedFile (file_path cur) (innerText event)))
        data = fileIndex ->
      0 <= fileIndex ->
      exists s' effs,
        handleSelectFile data fileIndex None s = (Some s', effs) /\
        handleClick data getFullPathOfImportedFile isMobile event s
        = Some (s', StopPropagation :: effs) /\
        index s' = fileIndex).
Proof.
  split; [| split].
  - intros Hmeta Hmobile. unfold handleClick. now rewrite Hmeta, Hmobile.
  - intros s' effs Hclick Hchanged.
    destruct (handleClick_inv _ _ _ _ _ _ _ Hclick)
      as [[-> _] | (_ & _ & Hgate & _)]; [| exact Hgate].
    destruct Hchanged as [Hne | Hne]; now contradiction Hne.
  - intros cur fileIndex Hgate Hlink Hcur Hfind Hfound.
    assert (Hidx : 0 <= fileIndex < JS.length data).
    { pose proof (findIndex_range
                    (fun file =>
                       JS.strict_eq (file_path file)
                         (getFullPathOfImportedFile (file_path cur) (innerText event)))
                    data) as Hrange.
      rewrite Hfind in Hrange. lia. }
    destruct (handleSelectFile_total data fileIndex None s Hidx) as (s' & effs & Hsel).
    destruct (handleSelectFile_inv _ _ _ _ _ _ Hsel) as (_ & _ & Hindex & _).
    exists s', effs. split; [exact Hsel |]. split; [| exact Hindex].
    unfold handleClick.
    assert (Hopen : negb (isMetaPressed s) && negb isMobile = false).
    { destruct Hgate as [-> | ->]; [reflexivity | apply andb_false_r]. }
    rewrite Hopen, Hlink, Hcur, Hfind.
    destruct (Z.gtb_spec fileIndex (-1)) as [_ | Hle]; [| lia].
    now rewrite Hsel.
Qed.

(** C8, as the code has it: for every index, with or without a file,
    selecting a file returns after scheduling the deferred centred
    scroll exactly when a line number is given and is not NaN (so also
    for an infinite one), the scheduled scroll is for that line number,
    and focus is requested exactly when the editor is mounted, whatever
    the line number. *)
Theorem selectFile_scroll_iff_defined_not_NaN s idx lineNumber :
  exists next effs,
    handleSelectFile data idx lineNumber s = (next, effs) /\
    (existsb is_scroll effs = true <->
     exists n, lineNumber = Some n /\ JS.Object_is_NaN n = false) /\
    (forall n, In (SetTimeout_revealLineInCenter n) effs -> lineNumber = Some n) /\
    (existsb is_focus effs = true <-> editorMounted s = true).
Proof.
  unfold handleSelectFile.
  eexists. eexists. split; [reflexivity |].
  destruct lineNumber as [n |]; [destruct (JS.Object_is_NaN n) eqn:Hnan |];
    destruct (editorMounted s); simpl;
    (split; [| split]);
    try (split; intros H; try discriminate; try reflexivity);
    try (intros m [Hm | Hm]; try discriminate; try contradiction);
    try (intros m []).
  all: try (destruct H as (m & Hm & Hn); congruence).
  all: try (exists n; split; [reflexivity | exact Hnan]).
  all: try (injection Hm as ->; reflexivity).
  all: try (destruct Hm as [Hm | []]; discriminate).
Qed.

End ImportClick.

(** ** Closing the active first tab *)

(** What the code does when the active tab is the first of several: the
    replacement is looked up at position [max(0, 0 - 1) = 0] of the
    sequence before removal, which is the closed path itself, so the
    closed file stays active and has no tab any more. *)
Lemma closeTab_active_first_keeps_closed_path
      (data : list File) (resolve : string -> string -> option string)
      (s : State) (cur : File) :
  reachable data resolve s ->
  (1 < List.length (tabs s))%nat ->
  JS.get data (index s) = Some cur ->
  nth_error (tabs s) 0 = Some (file_path cur) ->
  exists s' f,
    handleTabClose data (file_path cur) s = Some s' /\
    JS.get data (index s') = Some f /\
    file_path f = file_path cur /\
    ~ In (file_path cur) (tabs s').
Proof.
  intros Hreach Hlen Hcur Hfirst.
  destruct (reachable_invariant _ _ _ Hreach) as (_ & Hnd & Hsub & _).
  destruct (replacement_found data (file_path cur) s Hsub Hlen)
    as (q & f & Hq & Hf & Hpath).
  rewrite (findIndex_NoDup _ _ _ Hnd Hfirst) in Hq.
  change (Z.max 0 (Z.of_nat 0 - 1)) with (Z.of_nat 0) in Hq.
  rewrite get_of_nat, Hfirst in Hq. injection Hq as <-.
  rewrite handleTabClose_many by exact Hlen.
  rewrite Hcur, String.eqb_refl, (findIndex_NoDup _ _ _ Hnd Hfirst).
  change (Z.max 0 (Z.of_nat 0 - 1)) with (Z.of_nat 0).
  rewrite get_of_nat, Hfirst.
  eexists. exists f. split; [reflexivity |].
  cbn [tabs index set_tabs set_index].
  split; [exact Hf |]. split; [exact Hpath |].
  intros Hin. apply In_filter_neq in Hin as [_ Hne]. now apply Hne.
Qed.

(** ** The samples, run *)

Lemma reachable_st_A : reachable three_files sibling_resolver st_A.
Proof.
  apply reachable_mount. reflexivity.
Qed.

Lemma reachable_st_AB_B : reachable three_files sibling_resolver st_AB_B.
Proof.
  apply (reachable_step _ _ st_A (SelectFile 1 None) st_AB_B []).
  - exact reachable_st_A.
  - reflexivity.
Qed.

Lemma reachable_st_AB_A : reachable three_files sibling_resolver st_AB_A.
Proof.
  apply (reachable_step _ _ st_AB_B (TabSelect "/contracts/A.sol") st_AB_A []).
  - exact reachable_st_AB_B.
  - reflexivity.
Qed.

(** C1: with files A, B, C, tabs [A; B] and A active (a state reached
    by opening B and going back to tab A), closing tab A leaves tab
    [B] alone but keeps index 0, the closed file A, active: the file of
    the new first tab, B at index 1, is not selected. *)
Theorem closeTab_first_active_keeps_closed_file :
  reachable three_files sibling_resolver st_AB_A /\
  JS.get three_files (index st_AB_A) = Some A_sol /\
  nth_error (tabs st_AB_A) 0 = Some (file_path A_sol) /\
  nth_error (tabs st_AB_A) 1 = Some (file_path B_sol) /\
  handleTabClose three_files (file_path A_sol) st_AB_A = Some st_B_A /\
  tabs st_B_A = [file_path B_sol] /\
  JS.get three_files (index st_B_A) = Some A_sol /\
  JS.get three_files (index st_B_A) <> Some B_sol.
Proof.
  split; [exact reachable_st_AB_A |].
  repeat (split; [reflexivity |]).
  discriminate.
Qed.

(** C8 fails as stated: a line number of +Infinity is not finite, yet
    the scroll is scheduled for it; and a selection made before the
    editor is mounted requests no focus. *)
Lemma selectFile_infinite_line_schedules_scroll :
  JS.isFinite (Some (S754_infinity false)) = false /\
  (exists s' effs,
      handleSelectFile three_files 1 (Some (S754_infinity false)) st_A
      = (Some s', effs) /\
      existsb is_scroll effs = true) /\
  (exists s' effs,
      handleSelectFile three_files 1 None st_A = (Some s', effs) /\
      existsb is_focus effs = false).
Proof.
  split; [reflexivity |].
  split; eexists; eexists; split; reflexivity.
Qed.

Lemma mount_initial_state_witness :
  three_files <> [] /\
  exists f s,
    nth_error three_files 0 = Some f /\
    mount three_files = Some s /\
    tabs s = [file_path f] /\
    index s = 0.
Proof.
  split; [discriminate |].
  apply (mount_initial_state three_files). discriminate.
Defined.

Lemma selectFile_sets_index_appends_once_witness :
  0 <= 1 < JS.length three_files /\
  exists f s' effs,
    JS.get three_files 1 = Some f /\
    handleSelectFile three_files 1 None st_A = (Some s', effs) /\
    index s' = 1 /\
    (In (file_path f) (tabs st_A) -> tabs s' = tabs st_A) /\
    (~ In (file_path f) (tabs st_A) -> tabs s' = tabs st_A ++ [file_path f]) /\
    (exists added, tabs s' = tabs st_A ++ added /\ (List.length added <= 1)%nat) /\
    (forall lineNumber', exists effs',
        handleSelectFile three_files 1 lineNumber' s' = (Some s', effs')).
Proof.
  assert (Hidx : 0 <= 1 < JS.length three_files) by (vm_compute; split; congruence).
  split; [exact Hidx |].
  exact (selectFile_sets_index_appends_once three_files st_A 1 None Hidx).
Defined.

Lemma closeTab_sole_tab_noop_witness :
  List.length (tabs st_A) = 1%nat /\
  handleTabClose three_files "/contracts/A.sol" st_A = Some st_A.
Proof.
  split; [reflexivity |].
  apply (closeTab_sole_tab_noop three_files st_A "/contracts/A.sol"). reflexivity.
Defined.

Lemma closeTab_active_selects_left_neighbour_witness :
  exists s' left f,
    handleTabClose three_files "/contracts/B.sol" st_AB_B = Some s' /\
    tabs s' = JS.filter (fun item => negb (String.eqb item "/contracts/B.sol"))
                        (tabs st_AB_B) /\
    ~ In "/contracts/B.sol" (tabs s') /\
    S (List.length (tabs s')) = List.length (tabs st_AB_B) /\
    nth_error (tabs st_AB_B) (1 - 1) = Some left /\
    JS.get three_files (index s') = Some f /\
    file_path f = left.
Proof.
  apply (closeTab_active_selects_left_neighbour
           three_files sibling_resolver st_AB_B 1 "/contracts/B.sol" B_sol).
  - exact reachable_st_AB_B.
  - vm_compute. constructor.
  - vm_compute. constructor.
  - reflexivity.
  - reflexivity.
  - reflexivity.
Defined.

Lemma reachable_tabs_nonempty_nodup_ordered_witness :
  tabs st_AB_B <> [] /\
  NoDup (tabs st_AB_B) /\
  forall ev s' effs,
    step three_files sibling_resolver ev st_AB_B = Some (s', effs) ->
    exists added,
      tabs s' = surviving (tabs st_AB_B) (tabs s') ++ added /\
      forall x, In x added -> ~ In x (tabs st_AB_B).
Proof.
  apply (reachable_tabs_nonempty_nodup_ordered three_files sibling_resolver st_AB_B).
  exact reachable_st_AB_B.
Defined.

Lemma reachable_tabs_in_data_closeTab_finds_file_witness :
  (forall p, In p (tabs st_AB_A) -> exists f, In f three_files /\ file_path f = p) /\
  forall path,
    exists s' f,
      handleTabClose three_files path st_AB_A = Some s' /\
      index s' <> -1 /\
      JS.get three_files (index s') = Some f.
Proof.
  apply (reachable_tabs_in_data_closeTab_finds_file
           three_files sibling_resolver st_AB_A).
  exact reachable_st_AB_A.
Defined.

Lemma click_unresolved_import_changes_nothing_witness :
  handleClick three_files sibling_resolver true (mkMouseEvent true "Z.sol") st_A
  = Some (st_A, []).
Proof.
  apply (click_unresolved_import_changes_nothing
           three_files sibling_resolver st_A true (mkMouseEvent true "Z.sol")).
  - exact reachable_st_A.
  - reflexivity.
  - intros cur file _ Hfile.
    destruct Hfile as [<- | [<- | [<- | []]]]; discriminate.
Defined.

Lemma click_navigation_gated_witness :
  handleClick three_files sibling_resolver false (mkMouseEvent true "B.sol") st_A
  = Some (st_A, []) /\
  exists s' effs,
    handleSelectFile three_files 1 None st_A = (Some s', effs) /\
    handleClick three_files sibling_resolver true (mkMouseEvent true "B.sol") st_A
    = Some (s', StopPropagation :: effs) /\
    index s' = 1.
Proof.
  split.
  - apply (proj1 (click_navigation_gated
                    three_files sibling_resolver st_A false (mkMouseEvent true "B.sol")));
      reflexivity.
  - apply (proj2 (proj2 (click_navigation_gated
                           three_files sibling_resolver st_A true
                           (mkMouseEvent true "B.sol")))
             A_sol 1).
    + right. reflexivity.
    + reflexivity.
    + reflexivity.
    + reflexivity.
    + discriminate.
Defined.

(** The walk-through with three files: from mount, a click on the
    import of [B.sol] with the modifier held opens tab B and makes it
    active; selecting [C.sol] in the side bar appends tab C; closing the
    inactive tab B leaves tabs [A; C] with C still active. *)
Example three_files_walk_through :
  exists s1 s2 s3 e1 e2,
    step three_files sibling_resolver (KeyDown true) st_A = Some (s1, []) /\
    step three_files sibling_resolver (Click false (mkMouseEvent true "B.sol")) s1
    = Some (s2, e1) /\
    (index s2 = 1 /\ tabs s2 = ["/contracts/A.sol"; "/contracts/B.sol"]) /\
    step three_files sibling_resolver (SelectFile 2 None) s2 = Some (s3, e2) /\
    (index s3 = 2 /\
     tabs s3 = ["/contracts/A.sol"; "/contracts/B.sol"; "/contracts/C.sol"]) /\
    step three_files sibling_resolver (TabClose "/contracts/B.sol") s3
    = Some (mkState 2 ["/contracts/A.sol"; "/contracts/C.sol"] true false, []).
Proof.
  do 5 eexists.
  split; [reflexivity |].
  split; [reflexivity |].
  split; [split; reflexivity |].
  split; [reflexivity |].
  split; [split; reflexivity | reflexivity].
Qed.

(** ** Further properties of the handlers *)

Lemma findIndex_from_before {A : Type} (p : A -> bool) (a : list A) (i : Z)
      (m : nat) (y : A) :
  i + Z.of_nat m < JS.findIndex_from p a i ->
  nth_error a m = Some y ->
  p y = false.
Proof.
  revert i m.
  induction a as [| x rest IH]; intros i m Hlt Hnth.
  - destruct m; discriminate.
  - simpl in Hlt. destruct (p x) eqn:Hpx; [lia |].
    destruct m as [| m]; simpl in Hnth.
    + now injection Hnth as <-.
    + apply (IH (i + 1) m); [lia | exact Hnth].
Qed.

Lemma findIndex_before {A : Type} (p : A -> bool) (a : list A) (j : Z) (y : A) :
  0 <= j < JS.findIndex p a ->
  JS.get a j = Some y ->
  p y = false.
Proof.
  intros [Hlo Hhi] Hget. unfold JS.get in Hget.
  destruct (Z.ltb_spec j 0) as [Hneg | _]; [lia |].
  apply (findIndex_from_before p a 0 (Z.to_nat j) y); [| exact Hget].
  unfold JS.findIndex in Hhi. lia.
Qed.

Section MoreTabManager.

Variable data : list File.
Variable getFullPathOfImportedFile : string -> string -> option string.

(** X1: mounting raises (reading [file_path] of [undefined]) exactly
    when the File collection is empty. *)
Theorem mount_fails_iff_empty : mount data = None <-> data = [].
Proof.
  unfold mount, JS.get. destruct data as [| f rest]; simpl.
  - split; reflexivity.
  - split; discriminate.
Qed.

(** X2: the handler itself never raises: whatever the index, it
    returns after making the calls it makes for any other index; it is
    the render that follows that raises, and it does so exactly when
    the index is outside [0 .. data.length - 1]. *)
Theorem selectFile_render_fails_iff_out_of_range idx lineNumber s :
  (fst (handleSelectFile data idx lineNumber s) = None <->
   ~ (0 <= idx < JS.length data)) /\
  (forall idx',
      snd (handleSelectFile data idx lineNumber s)
      = snd (handleSelectFile data idx' lineNumber s)).
Proof.
  split; [| reflexivity].
  unfold handleSelectFile. cbn [fst].
  destruct (JS.get data idx) as [f |] eqn:Hget.
  - split; [discriminate |].
    intros Hout. contradiction Hout. exact (get_Some_range _ _ _ Hget).
  - split; [| reflexivity].
    intros _ Hin. destruct (get_in_range data idx Hin) as (f & Hf). congruence.
Qed.

(** X3: in every reachable state the active index is the index of a
    file of the collection, so [data[index]] is never [undefined]. *)
Theorem reachable_active_file_exists s :
  reachable data getFullPathOfImportedFile s ->
  0 <= index s < JS.length data /\
  exists f, JS.get data (index s) = Some f /\ In f data.
Proof.
  intros Hreach.
  destruct (reachable_invariant _ _ _ Hreach) as (_ & _ & _ & Hvalid).
  split; [exact Hvalid |].
  destruct (get_in_range data (index s) Hvalid) as (f & Hf).
  exists f. split; [exact Hf | exact (get_In _ _ _ Hf)].
Qed.

(** X4: in every reachable state there are at least one tab and at
    most as many tabs as files. *)
Theorem reachable_tabs_at_most_files s :
  reachable data getFullPathOfImportedFile s ->
  (1 <= List.length (tabs s) <= List.length data)%nat.
Proof.
  intros Hreach.
  destruct (reachable_invariant _ _ _ Hreach) as (Hne & Hnd & Hsub & _).
  split.
  - destruct (tabs s); [contradiction | simpl; lia].
  - rewrite <- (length_map file_path data).
    apply NoDup_incl_length; [exact Hnd |].
    intros p Hp. destruct (Hsub p Hp) as (f & Hf & <-).
    now apply in_map.
Qed.

(** X5: a step from a reachable state leaves the tab sequence as it
    is, or lengthens it by one, or shortens it by one.  It grows only
    on a file selection or a click, and the new last tab is then the
    path of the new active file; it shrinks only on closing a tab that
    was open. *)
Theorem step_tabs_grow_shrink ev s s' effs :
  reachable data getFullPathOfImportedFile s ->
  step data getFullPathOfImportedFile ev s = Some (s', effs) ->
  tabs s' = tabs s \/
  (((exists idx lineNumber, ev = SelectFile idx lineNumber) \/
    (exists isMobile event, ev = Click isMobile event)) /\
   exists f,
     JS.get data (index s') = Some f /\
     ~ In (file_path f) (tabs s) /\
     tabs s' = tabs s ++ [file_path f]) \/
  (exists path,
      ev = TabClose path /\
      In path (tabs s) /\
      tabs s' = JS.filter (fun item => negb (String.eqb item path)) (tabs s) /\
      S (List.length (tabs s')) = List.length (tabs s)).
Proof.
  intros Hreach.
  destruct (reachable_invariant _ _ _ Hreach) as (_ & Hnd & _ & _).
  assert (Hsel : forall idx ln effs0,
             handleSelectFile data idx ln s = (Some s', effs0) ->
             tabs s' = tabs s \/
             exists f,
               JS.get data (index s') = Some f /\
               ~ In (file_path f) (tabs s) /\
               tabs s' = tabs s ++ [file_path f]).
  { intros idx ln effs0 H.
    destruct (handleSelectFile_inv _ _ _ _ _ _ H)
      as (f & Hf & Hidx & _ & _ & [[_ Hsame] | [Hnew Happ]]).
    - now left.
    - right. exists f. rewrite Hidx. now repeat split. }
  destruct ev as [idx ln | path | path | isMobile event | isMeta | |]; simpl.
  - intros H. destruct (Hsel _ _ _ (step_SelectFile_inv data getFullPathOfImportedFile _ _ _ _ _ H)) as [Hsame | Hgrow]; [now left |].
    right. left. split; [left; eauto | exact Hgrow].
  - intros Heq. injection Heq as <- _. left. apply handleTabSelect_tabs.
  - destruct (handleTabClose data path s) as [s1 |] eqn:Hclose; [| discriminate].
    intros Heq. injection Heq as <- _.
    destruct (handleTabClose_inv _ _ _ _ Hclose) as [-> | [Hlen Hfilter]];
      [now left |].
    destruct (in_dec string_dec path (tabs s)) as [Hin | Hnotin].
    + right. right. exists path. rewrite Hfilter.
      repeat split; [exact Hin |]. now apply filter_neq_length.
    + left. rewrite Hfilter. now apply filter_neq_notin.
  - intros Hclick.
    destruct (handleClick_inv _ _ _ _ _ _ _ Hclick)
      as [[-> _] | (fileIndex & effs' & _ & _ & Hs & _)]; [now left |].
    destruct (Hsel _ _ _ Hs) as [Hsame | Hgrow]; [now left |].
    right. left. split; [right; eauto | exact Hgrow].
  - intros Heq. injection Heq as <- _. left.
    unfold handleKeyDown. now destruct isMeta.
  - intros Heq. injection Heq as <- _. now left.
  - intros Heq. injection Heq as <- _. now left.
Qed.

(** X6: selecting a tab that is open, in a reachable state, makes
    active the first file of the collection that has this path, and
    leaves the tab sequence as it is. *)
Theorem tabSelect_open_tab_activates_it s path :
  reachable data getFullPathOfImportedFile s ->
  In path (tabs s) ->
  exists f,
    JS.get data (index (handleTabSelect data path s)) = Some f /\
    file_path f = path /\
    (forall j g,
        0 <= j < index (handleTabSelect data path s) ->
        JS.get data j = Some g -> file_path g <> path) /\
    tabs (handleTabSelect data path s) = tabs s.
Proof.
  intros Hreach Hopen.
  destruct (reachable_invariant _ _ _ Hreach) as (_ & _ & Hsub & _).
  destruct (Hsub path Hopen) as (g0 & Hg0 & Hpath0).
  assert (Hge : 0 <= JS.findIndex (fun item => String.eqb (file_path item) path) data).
  { apply (findIndex_exists _ data g0 Hg0). rewrite Hpath0. apply String.eqb_refl. }
  destruct (findIndex_found _ data Hge) as (f & Hf & Hmatch).
  apply String.eqb_eq in Hmatch.
  assert (Hidx : index (handleTabSelect data path s)
                 = JS.findIndex (fun item => String.eqb (file_path item) path) data).
  { unfold handleTabSelect.
    destruct (Z.gtb_spec
                (JS.findIndex (fun item => String.eqb (file_path item) path) data) (-1))
      as [_ | Hle]; [reflexivity | lia]. }
  exists f. rewrite Hidx.
  split; [exact Hf |]. split; [exact Hmatch |].
  split; [| apply handleTabSelect_tabs].
  intros j g Hj Hg. apply String.eqb_neq.
  exact (findIndex_before (fun item => String.eqb (file_path item) path) data j g Hj Hg).
Qed.

(** X7: selecting a path that no file of the collection has changes
    nothing (and raises nothing). *)
Theorem tabSelect_unknown_path_noop s path :
  (forall f, In f data -> file_path f <> path) ->
  handleTabSelect data path s = s.
Proof.
  intros Hunknown. unfold handleTabSelect.
  rewrite findIndex_none; [reflexivity |].
  intros f Hf. apply String.eqb_neq. now apply Hunknown.
Qed.

(** X8: closing an open tab other than the active one, when several
    are open in a reachable state, removes exactly that tab and keeps
    the active index: every other tab stays, in place. *)
Theorem tabClose_inactive_keeps_active s path cur :
  reachable data getFullPathOfImportedFile s ->
  (1 < List.length (tabs s))%nat ->
  In path (tabs s) ->
  JS.get data (index s) = Some cur ->
  file_path cur <> path ->
  exists s',
    handleTabClose data path s = Some s' /\
    index s' = index s /\
    tabs s' = JS.filter (fun item => negb (String.eqb item path)) (tabs s) /\
    S (List.length (tabs s')) = List.length (tabs s) /\
    (forall x, In x (tabs s') <-> In x (tabs s) /\ x <> path) /\
    (In (file_path cur) (tabs s) -> In (file_path cur) (tabs s')).
Proof.
  intros Hreach Hlen Hopen Hcur Hinactive.
  destruct (reachable_invariant _ _ _ Hreach) as (_ & Hnd & _ & _).
  rewrite handleTabClose_many by exact Hlen.
  rewrite Hcur. apply String.eqb_neq in Hinactive as Hneq. rewrite Hneq.
  eexists. split; [reflexivity |].
  cbn [tabs index set_tabs].
  split; [reflexivity |]. split; [reflexivity |].
  split; [now apply filter_neq_length |].
  split.
  - intros x. apply In_filter_neq.
  - intros Hin. apply In_filter_neq. now split.
Qed.

(** X9: closing a path that is neither a tab nor the active file's
    path changes nothing, however many tabs are open. *)
Theorem tabClose_unopened_inactive_noop s path cur :
  JS.get data (index s) = Some cur ->
  file_path cur <> path ->
  ~ In path (tabs s) ->
  handleTabClose data path s = Some s.
Proof.
  intros Hcur Hinactive Hclosed.
  destruct (Nat.le_gt_cases (List.length (tabs s)) 1) as [Hle | Hgt].
  - now apply handleTabClose_single.
  - rewrite handleTabClose_many by exact Hgt.
    rewrite Hcur. apply String.eqb_neq in Hinactive. rewrite Hinactive.
    rewrite filter_neq_notin by exact Hclosed.
    now destruct s.
Qed.

End MoreTabManager.

(** ** The active file keeps its tab *)

Section ActiveTab.

Variable data : list File.
Variable getFullPathOfImportedFile : string -> string -> option string.

Lemma handleTabClose_flags path s s' :
  handleTabClose data path s = Some s' ->
  isMetaPressed s' = isMetaPressed s /\ editorMounted s' = editorMounted s.
Proof.
  unfold handleTabClose.
  destruct (JS.length (tabs s) >? 1).
  - destruct (JS.get data (index s)) as [cur |]; [| discriminate].
    intros Heq. injection Heq as <-.
    destruct (String.eqb (file_path cur) path); split; reflexivity.
  - intros Heq. injection Heq as <-. split; reflexivity.
Qed.

Lemma handleTabClose_active_left s (p : nat) path cur :
  NoDup (tabs s) ->
  tabs_in_data data s ->
  (0 < p)%nat ->
  JS.get data (index s) = Some cur ->
  file_path cur = path ->
  nth_error (tabs s) p = Some path ->
  exists s' f,
    handleTabClose data path s = Some s' /\
    JS.get data (index s') = Some f /\
    In (file_path f) (tabs s').
Proof.
  intros Hnd Hsub Hp Hcur Hactive Hpos.
  assert (Hlen : (1 < List.length (tabs s))%nat).
  { assert (p < List.length (tabs s))%nat; [| lia].
    apply nth_error_Some. rewrite Hpos. discriminate. }
  destruct (replacement_found data path s Hsub Hlen) as (q & f & Hq & Hf & Hpath).
  rewrite (findIndex_NoDup _ _ _ Hnd Hpos) in Hq.
  replace (Z.max 0 (Z.of_nat p - 1)) with (Z.of_nat (p - 1)) in Hq by lia.
  rewrite get_of_nat in Hq.
  rewrite handleTabClose_many by exact Hlen.
  rewrite Hcur, Hactive, String.eqb_refl.
  rewrite (findIndex_NoDup _ _ _ Hnd Hpos).
  replace (Z.max 0 (Z.of_nat p - 1)) with (Z.of_nat (p - 1)) by lia.
  rewrite get_of_nat, Hq.
  eexists. exists f. split; [reflexivity |].
  cbn [tabs index set_tabs set_index].
  split; [exact Hf |].
  apply In_filter_neq. rewrite Hpath.
  split; [exact (nth_error_In _ _ Hq) |].
  intros Heq.
  assert (Hplen : (p < List.length (tabs s))%nat).
  { apply nth_error_Some. rewrite Hpos. discriminate. }
  assert (Hsame : (p - 1)%nat = p).
  { apply (proj1 (NoDup_nth_error (tabs s)) Hnd); [lia | congruence]. }
  lia.
Qed.

Lemma handleTabSelect_open s path :
  tabs_in_data data s ->
  In path (tabs s) ->
  exists f,
    JS.get data (index (handleTabSelect data path s)) = Some f /\
    file_path f = path.
Proof.
  intros Hsub Hopen.
  destruct (Hsub path Hopen) as (g0 & Hg0 & Hpath0).
  assert (Hge : 0 <= JS.findIndex (fun item => String.eqb (file_path item) path) data).
  { apply (findIndex_exists _ data g0 Hg0). rewrite Hpath0. apply String.eqb_refl. }
  destruct (findIndex_found _ data Hge) as (f & Hf & Hmatch).
  exists f. split; [| now apply String.eqb_eq].
  unfold handleTabSelect.
  destruct (Z.gtb_spec
              (JS.findIndex (fun item => String.eqb (file_path item) path) data) (-1))
    as [_ | Hle]; [exact Hf | lia].
Qed.

(** X10: from a reachable state in which the active file has a tab,
    every step leads to a state in which the active file has a tab,
    except selecting a path that is not a tab and closing the first of
    several tabs while it is the active one. *)
Theorem active_keeps_tab ev s s' effs :
  reachable data getFullPathOfImportedFile s ->
  active_has_tab data s ->
  step data getFullPathOfImportedFile ev s = Some (s', effs) ->
  ~ orphaning data ev s ->
  active_has_tab data s'.
Proof.
  intros Hreach (cur & Hcur & Hcurtab) Hstep Hsafe.
  destruct (reachable_invariant _ _ _ Hreach) as (_ & Hnd & Hsub & _).
  assert (Hsel : forall idx ln effs0,
             handleSelectFile data idx ln s = (Some s', effs0) ->
             active_has_tab data s').
  { intros idx ln effs0 H.
    destruct (handleSelectFile_inv _ _ _ _ _ _ H)
      as (f & Hf & Hidx & _ & _ & Htabs).
    exists f. rewrite Hidx. split; [exact Hf |].
    destruct Htabs as [[Hin ->] | [_ ->]]; [exact Hin |].
    apply in_or_app. right. now left. }
  destruct ev as [idx ln | path | path | isMobile event | isMeta | |];
    simpl in Hstep, Hsafe.
  - exact (Hsel _ _ _ (step_SelectFile_inv data getFullPathOfImportedFile _ _ _ _ _ Hstep)).
  - injection Hstep as <- _.
    assert (Hopen : In path (tabs s)).
    { destruct (in_dec string_dec path (tabs s)); [assumption | contradiction]. }
    destruct (handleTabSelect_open s path Hsub Hopen) as (f & Hf & Hpath).
    exists f. split; [exact Hf |].
    rewrite handleTabSelect_tabs, Hpath. exact Hopen.
  - destruct (handleTabClose data path s) as [s1 |] eqn:Hclose; [| discriminate].
    injection Hstep as <- _.
    destruct (Nat.le_gt_cases (List.length (tabs s)) 1) as [Hle | Hgt].
    { rewrite handleTabClose_single in Hclose by exact Hle.
      injection Hclose as <-. now exists cur. }
    destruct (string_dec (file_path cur) path) as [Hactive | Hinactive].
    + destruct (In_nth_error _ _ Hcurtab) as (p & Hpos). rewrite Hactive in Hpos.
      destruct p as [| p].
      { contradiction Hsafe. split; [exact Hgt |]. split; [exact Hpos |]. now exists cur. }
      destruct (handleTabClose_active_left s (S p) path cur Hnd Hsub
                  ltac:(lia) Hcur Hactive Hpos) as (s2 & f & Hclose2 & Hf & Hin).
      rewrite Hclose in Hclose2. injection Hclose2 as <-.
      now exists f.
    + rewrite handleTabClose_many in Hclose by exact Hgt.
      rewrite Hcur in Hclose.
      apply String.eqb_neq in Hinactive as Hneq. rewrite Hneq in Hclose.
      injection Hclose as <-. exists cur. split; [exact Hcur |].
      cbn [tabs set_tabs]. apply In_filter_neq. now split.
  - destruct (handleClick_inv _ _ _ _ _ _ _ Hstep)
      as [[-> _] | (fileIndex & effs' & _ & _ & Hs & _)].
    + now exists cur.
    + exact (Hsel _ _ _ Hs).
  - injection Hstep as <- _. exists cur.
    unfold handleKeyDown. destruct isMeta; now split.
  - injection Hstep as <- _. now exists cur.
  - injection Hstep as <- _. now exists cur.
Qed.

(** X11: the meta-key flag changes only on a key event (a meta key
    going down, or any key going up), the editor handle is set only by
    the mount callback and never unset, and key events and the mount
    callback leave the active index and the tabs alone. *)
Theorem step_field_frames ev s s' effs :
  step data getFullPathOfImportedFile ev s = Some (s', effs) ->
  (isMetaPressed s' <> isMetaPressed s -> ev = KeyDown true \/ ev = KeyUp) /\
  (editorMounted s' <> editorMounted s -> ev = EditorDidMount) /\
  (editorMounted s = true -> editorMounted s' = true) /\
  ((exists isMetaKey, ev = KeyDown isMetaKey) \/ ev = KeyUp \/ ev = EditorDidMount ->
   index s' = index s /\ tabs s' = tabs s).
Proof.
  assert (Hsel : forall idx ln effs0,
             handleSelectFile data idx ln s = (Some s', effs0) ->
             isMetaPressed s' = isMetaPressed s /\ editorMounted s' = editorMounted s).
  { intros idx ln effs0 H.
    destruct (handleSelectFile_inv _ _ _ _ _ _ H) as (_ & _ & _ & Hm & He & _).
    now split. }
  assert (Hflags : isMetaPressed s' = isMetaPressed s ->
                   editorMounted s' = editorMounted s ->
                   (forall isMetaKey, ev <> KeyDown isMetaKey) ->
                   ev <> KeyUp -> ev <> EditorDidMount ->
                   (isMetaPressed s' <> isMetaPressed s -> ev = KeyDown true \/ ev = KeyUp) /\
                   (editorMounted s' <> editorMounted s -> ev = EditorDidMount) /\
                   (editorMounted s = true -> editorMounted s' = true) /\
                   ((exists isMetaKey, ev = KeyDown isMetaKey) \/ ev = KeyUp
                    \/ ev = EditorDidMount ->
                    index s' = index s /\ tabs s' = tabs s)).
  { intros Hm He Hkd Hku Hmount. repeat split; try congruence; try contradiction.
    - destruct H as [(k & Hk) | [Hk | Hk]]; [now apply Hkd in Hk | easy | easy].
    - destruct H as [(k & Hk) | [Hk | Hk]]; [now apply Hkd in Hk | easy | easy]. }
  destruct ev as [idx ln | path | path | isMobile event | isMeta | |]; simpl.
  - intros H. destruct (Hsel _ _ _ (step_SelectFile_inv data getFullPathOfImportedFile _ _ _ _ _ H)). now apply Hflags.
  - intros Heq. injection Heq as <- _.
    apply Hflags; try discriminate; unfold handleTabSelect; now destruct (_ >? -1).
  - destruct (handleTabClose data path s) as [s1 |] eqn:Hclose; [| discriminate].
    intros Heq. injection Heq as <- _.
    destruct (handleTabClose_flags _ _ _ Hclose). now apply Hflags.
  - intros Hclick.
    destruct (handleClick_inv _ _ _ _ _ _ _ Hclick)
      as [[-> _] | (fileIndex & effs' & _ & _ & Hs & _)].
    + now apply Hflags.
    + destruct (Hsel _ _ _ Hs). now apply Hflags.
  - intros Heq. injection Heq as <- _. unfold handleKeyDown.
    destruct isMeta; simpl; repeat split; try congruence; auto.
  - intros Heq. injection Heq as <- _. simpl. repeat split; try congruence; auto.
  - intros Heq. injection Heq as <- _. simpl. repeat split; try congruence; auto.
Qed.

End ActiveTab.

(** ** Clicks that navigate *)

Section ClickNavigation.

Variable data : list File.
Variable getFullPathOfImportedFile : string -> string -> option string.

Lemma strict_eq_true (s : string) (v : option string) :
  JS.strict_eq s v = true <-> v = Some s.
Proof.
  destruct v as [t |]; simpl.
  - rewrite String.eqb_eq. split; congruence.
  - split; discriminate.
Qed.

Lemma handleClick_navigation_inv isMobile event s s' effs :
  handleClick data getFullPathOfImportedFile isMobile event s = Some (s', effs) ->
  (s' = s /\ effs = []) \/
  (exists cur file,
      (isMetaPressed s = true \/ isMobile = true) /\
      isImportLink event = true /\
      JS.get data (index s) = Some cur /\
      In file data /\
      getFullPathOfImportedFile (file_path cur) (innerText event)
      = Some (file_path file) /\
      JS.get data (index s') = Some file /\
      In (file_path file) (tabs s') /\
      (forall x, In x (tabs s) -> In x (tabs s')) /\
      effs = StopPropagation :: (if editorMounted s then [EditorFocus] else [])).
Proof.
  unfold handleClick.
  destruct (negb (isMetaPressed s) && negb isMobile) eqn:Hgate.
  { intros Heq. left. split; congruence. }
  destruct (isImportLink event) eqn:Hlink.
  2:{ intros Heq. left. split; congruence. }
  destruct (JS.get data (index s)) as [cur |] eqn:Hcur; [| discriminate].
  set (fullPath := getFullPathOfImportedFile (file_path cur) (innerText event)).
  set (fileIndex := JS.findIndex (fun file => JS.strict_eq (file_path file) fullPath) data).
  destruct (Z.gtb_spec fileIndex (-1)) as [Hfound | Hmiss].
  2:{ intros Heq. left. split; congruence. }
  destruct (findIndex_found (fun file => JS.strict_eq (file_path file) fullPath) data)
    as (file & Hfile & Hmatch); [fold fileIndex; lia |].
  fold fileIndex in Hfile. apply strict_eq_true in Hmatch.
  unfold handleSelectFile. rewrite Hfile.
  intros Heq. injection Heq as <- <-.
  right. exists cur, file.
  split.
  { apply andb_false_iff in Hgate.
    destruct Hgate as [Hm | Hm]; apply negb_false_iff in Hm; auto. }
  split; [reflexivity |]. split; [reflexivity |].
  split; [exact (get_In _ _ _ Hfile) |].
  split; [exact Hmatch |].
  cbn [tabs index set_tabs set_index].
  split; [exact Hfile |].
  destruct (JS.some _ (tabs s)) eqn:Hsome.
  - apply some_eqb_In in Hsome. now repeat split.
  - repeat split.
    + apply in_or_app. right. now left.
    + intros x Hx. apply in_or_app. now left.
Qed.

(** X12: [event.stopPropagation()] is called by the click handler
    exactly when the click navigates: the flag is on or the device is
    mobile, the target is an import link, the active file exists and
    the resolved path is the path of a file of the collection. *)
Theorem click_stopPropagation_iff_navigates s isMobile event :
  (exists s' effs,
      handleClick data getFullPathOfImportedFile isMobile event s = Some (s', effs) /\
      In StopPropagation effs) <->
  ((isMetaPressed s = true \/ isMobile = true) /\
   isImportLink event = true /\
   exists cur file,
     JS.get data (index s) = Some cur /\
     In file data /\
     getFullPathOfImportedFile (file_path cur) (innerText event)
     = Some (file_path file)).
Proof.
  split.
  - intros (s' & effs & Hclick & Hstop).
    destruct (handleClick_navigation_inv _ _ _ _ _ Hclick)
      as [[_ ->] | (cur & file & Hgate & Hlink & Hcur & Hfile & Hres & _)].
    + contradiction.
    + split; [exact Hgate |]. split; [exact Hlink |]. now exists cur, file.
  - intros (Hgate & Hlink & cur & file & Hcur & Hfile & Hres).
    assert (Hopen : negb (isMetaPressed s) && negb isMobile = false).
    { destruct Hgate as [-> | ->]; [reflexivity | apply andb_false_r]. }
    pose proof (findIndex_range
                  (fun f => JS.strict_eq (file_path f)
                              (getFullPathOfImportedFile (file_path cur) (innerText event)))
                  data) as Hrange.
    assert (Hge : 0 <= JS.findIndex
                         (fun f => JS.strict_eq (file_path f)
                                     (getFullPathOfImportedFile (file_path cur)
                                                                (innerText event)))
                         data).
    { apply (findIndex_exists _ data file Hfile). now apply strict_eq_true. }
    destruct (handleSelectFile_total
                data
                (JS.findIndex
                   (fun f => JS.strict_eq (file_path f)
                               (getFullPathOfImportedFile (file_path cur)
                                                          (innerText event)))
                   data)
                None s) as (s' & effs & Hsel); [lia |].
    exists s', (StopPropagation :: effs). split; [| now left].
    unfold handleClick. rewrite Hopen, Hlink, Hcur.
    destruct (Z.gtb_spec
                (JS.findIndex
                   (fun f => JS.strict_eq (file_path f)
                               (getFullPathOfImportedFile (file_path cur)
                                                          (innerText event)))
                   data) (-1)) as [_ | Hle]; [| lia].
    now rewrite Hsel.
Qed.

(** X13: when a click navigates, the new active file is a file whose
    path is the resolved import path, that path is among the tabs
    afterwards, no tab is lost, and besides stopping the event the only
    call made is the focus request of a mounted editor: no scroll is
    scheduled. *)
Theorem click_navigation_opens_resolved_file s isMobile event s' effs :
  handleClick data getFullPathOfImportedFile isMobile event s = Some (s', effs) ->
  In StopPropagation effs ->
  exists cur file,
    JS.get data (index s) = Some cur /\
    getFullPathOfImportedFile (file_path cur) (innerText event)
    = Some (file_path file) /\
    JS.get data (index s') = Some file /\
    In (file_path file) (tabs s') /\
    (forall x, In x (tabs s) -> In x (tabs s')) /\
    effs = StopPropagation :: (if editorMounted s then [EditorFocus] else []).
Proof.
  intros Hclick Hstop.
  destruct (handleClick_navigation_inv _ _ _ _ _ Hclick)
    as [[_ ->] | (cur & file & _ & _ & Hcur & _ & Hres & Hact & Htab & Hkeep & Heffs)].
  - contradiction.
  - exists cur, file. repeat split; assumption.
Qed.

End ClickNavigation.

(** ** Models prepared at mount *)

Lemma NoDup_map_filter {A B : Type} (f : A -> B) (p : A -> bool) (l : list A) :
  NoDup (map f l) -> NoDup (map f (List.filter p l)).
Proof.
  induction l as [| x l IH]; simpl; intros Hnd; [constructor |].
  inversion Hnd as [| y ys Hx Hrest]; subst.
  destruct (p x); simpl; [| now apply IH].
  constructor; [| now apply IH].
  intros Hin. apply Hx.
  apply in_map_iff in Hin as (z & Hz & Hin).
  apply filter_In in Hin as [Hin _].
  rewrite <- Hz. now apply in_map.
Qed.

Lemma filter_none {A : Type} (p : A -> bool) (l : list A) :
  (forall x, In x l -> p x = false) -> List.filter p l = [].
Proof.
  induction l as [| x l IH]; simpl; intros Hnone; [reflexivity |].
  rewrite (Hnone x (or_introl eq_refl)). apply IH.
  intros y Hy. apply Hnone. now right.
Qed.

Section ModelsAtMount.

Variable Model : Type.
Variable Uri : Type.
Variable model_uri_path : Model -> string.
Variable Uri_parse : string -> Uri.
Variable createModel : string -> string -> Uri -> Model.
Variable data : list File.

(** The model created for a file of the collection has that file's
    path as the path of its URI. *)
Hypothesis created_path :
  forall file,
    In file data ->
    model_uri_path
      (createModel (source_code file) "sol" (Uri_parse (file_path file)))
    = file_path file.

Lemma Array_includes_In (a : list string) (x : string) :
  Array_includes a x = true <-> In x a.
Proof.
  unfold Array_includes. rewrite existsb_exists. split.
  - intros (y & Hin & Heq). apply String.eqb_eq in Heq. now subst.
  - intros Hin. exists x. split; [exact Hin | apply String.eqb_refl].
Qed.

Lemma In_slice_1 (file : File) : In file (Array_slice 1 data) -> In file data.
Proof.
  unfold Array_slice. destruct data as [| f rest]; simpl; [tauto | now right].
Qed.

Lemma In_newModels (loadedModels : list Model) (m : Model) :
  In m (newModels Model Uri model_uri_path Uri_parse createModel data loadedModels) <->
  exists file,
    In file (Array_slice 1 data) /\
    ~ In (file_path file) (map model_uri_path loadedModels) /\
    m = createModel (source_code file) "sol" (Uri_parse (file_path file)).
Proof.
  unfold newModels, JS.filter. rewrite in_map_iff. split.
  - intros (file & <- & Hin). apply filter_In in Hin as [Hin Hnew].
    exists file. split; [exact Hin |]. split; [| reflexivity].
    apply negb_true_iff in Hnew. rewrite <- Array_includes_In. congruence.
  - intros (file & Hin & Hnew & ->). exists file. split; [reflexivity |].
    apply filter_In. split; [exact Hin |].
    apply negb_true_iff, not_true_is_false. now rewrite Array_includes_In.
Qed.

Lemma mount_every_later_file_has_model_aux (loadedModels : list Model) (file : File) :
  In file (Array_slice 1 data) ->
  exists m,
    In m (decoratedModels Model Uri model_uri_path Uri_parse createModel data
                          loadedModels) /\
    model_uri_path m = file_path file.
Proof.
  intros Hin. unfold decoratedModels.
  destruct (in_dec string_dec (file_path file) (map model_uri_path loadedModels))
    as [Hloaded | Hnew].
  - apply in_map_iff in Hloaded as (m & Hpath & Hm).
    exists m. split; [apply in_or_app; now left | exact Hpath].
  - exists (createModel (source_code file) "sol" (Uri_parse (file_path file))).
    split; [| exact (created_path file (In_slice_1 file Hin))].
    apply in_or_app. right. apply In_newModels. now exists file.
Qed.

(** X14: after the mount callback every file of the collection but the
    first has a decorated model with its path, whatever models were
    loaded before. *)
Theorem mount_every_later_file_has_model (loadedModels : list Model) (file : File) :
  In file (Array_slice 1 data) ->
  exists m,
    In m (decoratedModels Model Uri model_uri_path Uri_parse createModel data
                          loadedModels) /\
    model_uri_path m = file_path file.
Proof.
  exact (mount_every_later_file_has_model_aux loadedModels file).
Qed.

(** X15: the mount callback creates no model whose path is the path of
    a model that is already loaded; and when the loaded models and the
    files after the first have pairwise distinct paths, so have all the
    models after the callback. *)
Theorem mount_creates_no_duplicate_model (loadedModels : list Model) :
  (forall m l,
      In m (newModels Model Uri model_uri_path Uri_parse createModel data loadedModels) ->
      In l loadedModels ->
      model_uri_path m <> model_uri_path l) /\
  (NoDup (map model_uri_path loadedModels) ->
   NoDup (map file_path (Array_slice 1 data)) ->
   NoDup (map model_uri_path
              (decoratedModels Model Uri model_uri_path Uri_parse createModel data
                               loadedModels))).
Proof.
  assert (Hfresh : forall m,
             In m (newModels Model Uri model_uri_path Uri_parse createModel data
                             loadedModels) ->
             ~ In (model_uri_path m) (map model_uri_path loadedModels)).
  { intros m Hm. apply In_newModels in Hm as (file & Hin & Hnew & ->).
    now rewrite (created_path file (In_slice_1 file Hin)). }
  split.
  - intros m l Hm Hl Heq. apply (Hfresh m Hm). rewrite Heq. now apply in_map.
  - intros Hloaded Hfiles. unfold decoratedModels. rewrite map_app.
    apply NoDup_app; [exact Hloaded | |].
    + unfold newModels, JS.filter. rewrite map_map.
      rewrite (map_ext_in _ file_path).
      * apply NoDup_map_filter; exact Hfiles.
      * intros file Hin. apply filter_In in Hin as [Hin _].
        exact (created_path file (In_slice_1 file Hin)).
    + intros p Hp Hq. apply in_map_iff in Hq as (m & <- & Hm).
      exact (Hfresh m Hm Hp).
Qed.

(** X16: run again on the models it has left, the mount callback
    creates no further model. *)
Theorem mount_again_creates_nothing (loadedModels : list Model) :
  newModels Model Uri model_uri_path Uri_parse createModel data
            (decoratedModels Model Uri model_uri_path Uri_parse createModel data
                             loadedModels)
  = [].
Proof.
  unfold newModels at 1, JS.filter.
  rewrite filter_none; [reflexivity |].
  intros file Hin. apply negb_false_iff, Array_includes_In.
  destruct (mount_every_later_file_has_model_aux loadedModels file Hin)
    as (m & Hm & Hpath).
  rewrite <- Hpath. now apply in_map.
Qed.

End ModelsAtMount.

(** ** The further properties on the samples *)

Lemma reachable_active_file_exists_witness :
  0 <= index st_AB_B < JS.length three_files /\
  exists f, JS.get three_files (index st_AB_B) = Some f /\ In f three_files.
Proof.
  apply (reachable_active_file_exists three_files sibling_resolver st_AB_B).
  exact reachable_st_AB_B.
Defined.

Lemma reachable_tabs_at_most_files_witness :
  (1 <= List.length (tabs st_AB_B) <= List.length three_files)%nat.
Proof.
  apply (reachable_tabs_at_most_files three_files sibling_resolver st_AB_B).
  exact reachable_st_AB_B.
Defined.

Lemma step_tabs_grow_shrink_witness :
  tabs st_A = tabs st_AB_B \/
  (((exists idx lineNumber, TabClose "/contracts/B.sol" = SelectFile idx lineNumber) \/
    (exists isMobile event, TabClose "/contracts/B.sol" = Click isMobile event)) /\
   exists f,
     JS.get three_files (index st_A) = Some f /\
     ~ In (file_path f) (tabs st_AB_B) /\
     tabs st_A = tabs st_AB_B ++ [file_path f]) \/
  (exists path,
      TabClose "/contracts/B.sol" = TabClose path /\
      In path (tabs st_AB_B) /\
      tabs st_A = JS.filter (fun item => negb (String.eqb item path)) (tabs st_AB_B) /\
      S (List.length (tabs st_A)) = List.length (tabs st_AB_B)).
Proof.
  apply (step_tabs_grow_shrink three_files sibling_resolver
           (TabClose "/contracts/B.sol") st_AB_B st_A []).
  - exact reachable_st_AB_B.
  - reflexivity.
Defined.

Lemma tabSelect_open_tab_activates_it_witness :
  exists f,
    JS.get three_files
           (index (handleTabSelect three_files "/contracts/A.sol" st_AB_B)) = Some f /\
    file_path f = "/contracts/A.sol" /\
    (forall j g,
        0 <= j < index (handleTabSelect three_files "/contracts/A.sol" st_AB_B) ->
        JS.get three_files j = Some g -> file_path g <> "/contracts/A.sol") /\
    tabs (handleTabSelect three_files "/contracts/A.sol" st_AB_B) = tabs st_AB_B.
Proof.
  apply (tabSelect_open_tab_activates_it
           three_files sibling_resolver st_AB_B "/contracts/A.sol").
  - exact reachable_st_AB_B.
  - left. reflexivity.
Defined.

Lemma tabSelect_unknown_path_noop_witness :
  handleTabSelect three_files "/contracts/Z.sol" st_AB_B = st_AB_B.
Proof.
  apply (tabSelect_unknown_path_noop three_files st_AB_B "/contracts/Z.sol").
  intros f Hf. destruct Hf as [<- | [<- | [<- | []]]]; discriminate.
Defined.

Lemma tabClose_inactive_keeps_active_witness :
  exists s',
    handleTabClose three_files "/contracts/A.sol" st_AB_B = Some s' /\
    index s' = index st_AB_B /\
    tabs s' = JS.filter (fun item => negb (String.eqb item "/contracts/A.sol"))
                        (tabs st_AB_B) /\
    S (List.length (tabs s')) = List.length (tabs st_AB_B) /\
    (forall x, In x (tabs s') <-> In x (tabs st_AB_B) /\ x <> "/contracts/A.sol") /\
    (In (file_path B_sol) (tabs st_AB_B) -> In (file_path B_sol) (tabs s')).
Proof.
  apply (tabClose_inactive_keeps_active
           three_files sibling_resolver st_AB_B "/contracts/A.sol" B_sol).
  - exact reachable_st_AB_B.
  - vm_compute. constructor.
  - left. reflexivity.
  - reflexivity.
  - discriminate.
Defined.

Lemma tabClose_unopened_inactive_noop_witness :
  handleTabClose three_files "/contracts/C.sol" st_AB_B = Some st_AB_B.
Proof.
  apply (tabClose_unopened_inactive_noop three_files st_AB_B "/contracts/C.sol" B_sol).
  - reflexivity.
  - discriminate.
  - intros [H | [H | []]]; discriminate.
Defined.

Lemma active_keeps_tab_witness : active_has_tab three_files st_A.
Proof.
  apply (active_keeps_tab three_files sibling_resolver
           (TabClose "/contracts/B.sol") st_AB_B st_A []).
  - exact reachable_st_AB_B.
  - exists B_sol. split; [reflexivity |]. right. left. reflexivity.
  - reflexivity.
  - intros (_ & Hfirst & _). discriminate.
Defined.

Lemma step_field_frames_witness :
  (isMetaPressed (mkState 0 ["/contracts/A.sol"] true false) <> isMetaPressed st_A ->
   KeyDown true = KeyDown true \/ KeyDown true = KeyUp) /\
  (editorMounted (mkState 0 ["/contracts/A.sol"] true false) <> editorMounted st_A ->
   KeyDown true = EditorDidMount) /\
  (editorMounted st_A = true ->
   editorMounted (mkState 0 ["/contracts/A.sol"] true false) = true) /\
  ((exists isMetaKey, KeyDown true = KeyDown isMetaKey) \/ KeyDown true = KeyUp \/
   KeyDown true = EditorDidMount ->
   index (mkState 0 ["/contracts/A.sol"] true false) = index st_A /\
   tabs (mkState 0 ["/contracts/A.sol"] true false) = tabs st_A).
Proof.
  apply (step_field_frames three_files sibling_resolver (KeyDown true) st_A
           (mkState 0 ["/contracts/A.sol"] true false) []).
  reflexivity.
Defined.

Lemma click_navigation_opens_resolved_file_witness :
  exists cur file,
    JS.get three_files (index st_A) = Some cur /\
    sibling_resolver (file_path cur) (innerText (mkMouseEvent true "B.sol"))
    = Some (file_path file) /\
    JS.get three_files (index st_AB_B) = Some file /\
    In (file_path file) (tabs st_AB_B) /\
    (forall x, In x (tabs st_A) -> In x (tabs st_AB_B)) /\
    [StopPropagation]
    = StopPropagation :: (if editorMounted st_A then [EditorFocus] else []).
Proof.
  apply (click_navigation_opens_resolved_file
           three_files sibling_resolver st_A true (mkMouseEvent true "B.sol")
           st_AB_B [StopPropagation]).
  - reflexivity.
  - left. reflexivity.
Defined.

Lemma sample_created_path :
  forall file,
    In file three_files ->
    sample_uri_path
      (sample_createModel (source_code file) "sol" (sample_Uri_parse (file_path file)))
    = file_path file.
Proof.
  intros file _. reflexivity.
Qed.

Lemma mount_every_later_file_has_model_witness :
  exists m,
    In m (decoratedModels string string sample_uri_path sample_Uri_parse
                          sample_createModel three_files ["/contracts/A.sol"]) /\
    sample_uri_path m = file_path C_sol.
Proof.
  apply (mount_every_later_file_has_model
           string string sample_uri_path sample_Uri_parse sample_createModel
           three_files sample_created_path ["/contracts/A.sol"] C_sol).
  right. left. reflexivity.
Defined.

Lemma mount_creates_no_duplicate_model_witness :
  NoDup (map sample_uri_path
             (decoratedModels string string sample_uri_path sample_Uri_parse
                              sample_createModel three_files
                              ["/contracts/A.sol"; "/contracts/C.sol"])).
Proof.
  apply (proj2 (mount_creates_no_duplicate_model
                  string string sample_uri_path sample_Uri_parse sample_createModel
                  three_files sample_created_path
                  ["/contracts/A.sol"; "/contracts/C.sol"])).
  - repeat constructor; simpl; intros H; repeat destruct H as [H | H];
      try discriminate; try contradiction.
  - repeat constructor; simpl; intros H; repeat destruct H as [H | H];
      try discriminate; try contradiction.
Defined.

Lemma mount_again_creates_nothing_witness :
  newModels string string sample_uri_path sample_Uri_parse sample_createModel
            three_files
            (decoratedModels string string sample_uri_path sample_Uri_parse
                             sample_createModel three_files ["/contracts/A.sol"])
  = [].
Proof.
  exact (mount_again_creates_nothing
           string string sample_uri_path sample_Uri_parse sample_createModel
           three_files sample_created_path ["/contracts/A.sol"]).
Defined.

(** ** A single file *)

(** X17: when the collection holds exactly one file, every reachable
    state has that file active and its path as the only tab. *)
Theorem single_file_state_is_fixed
        (getFullPathOfImportedFile : string -> string -> option string)
        (f : File) (s : State) :
  reachable [f] getFullPathOfImportedFile s ->
  index s = 0 /\ tabs s = [file_path f].
Proof.
  intros Hreach.
  destruct (reachable_invariant _ _ _ Hreach) as (Hne & Hnd & Hsub & Hvalid).
  split.
  - unfold index_valid, JS.length in Hvalid. simpl in Hvalid. lia.
  - assert (Hall : forall p, In p (tabs s) -> p = file_path f).
    { intros p Hp. destruct (Hsub p Hp) as (g & [<- | []] & <-). reflexivity. }
    destruct (tabs s) as [| p [| q rest]].
    + contradiction.
    + now rewrite (Hall p (or_introl eq_refl)).
    + exfalso. inversion Hnd as [| x xs Hp _]; subst. apply Hp.
      rewrite (Hall p (or_introl eq_refl)).
      rewrite <- (Hall q (or_intror (or_introl eq_refl))). now left.
Qed.

Lemma single_file_state_is_fixed_witness :
  index (mkState 0 ["/contracts/A.sol"] true true) = 0 /\
  tabs (mkState 0 ["/contracts/A.sol"] true true) = [file_path A_sol].
Proof.
  apply (single_file_state_is_fixed sibling_resolver A_sol
           (mkState 0 ["/contracts/A.sol"] true true)).
  apply (reachable_step [A_sol] sibling_resolver
           (mkState 0 ["/contracts/A.sol"] true false) EditorDidMount _ []);
    [| reflexivity].
  apply (reachable_step [A_sol] sibling_resolver
           (mkState 0 ["/contracts/A.sol"] false false) (KeyDown true) _ []);
    [| reflexivity].
  apply reachable_mount. reflexivity.
Defined.

(** An index without a file: the timer and the focus request are made
    all the same, and it is the render after the handler that raises. *)
Example selectFile_out_of_range_still_calls :
  handleSelectFile three_files 7 (Some (S754_finite false 5 0))
                   (mkState 0 ["/contracts/A.sol"] false true)
  = (None, [SetTimeout_revealLineInCenter (S754_finite false 5 0); EditorFocus]) /\
  step three_files sibling_resolver (SelectFile 7 (Some (S754_finite false 5 0)))
       (mkState 0 ["/contracts/A.sol"] false true)
  = None.
Proof.
  split; reflexivity.
Qed.
